(** * rr_data: player rating history reconstruction

    A shallow embedding of the two batch scripts of the repository:

    - the backfill script ([Backfill], the archival pipeline), which folds
      the snapshots recovered from the revision history into one record per
      player and writes them to the archive directory;
    - [scripts/generate_stats.js] ([GenerateStats], the live pipeline), which
      loads a base of player records, folds the live feed rows on top of it,
      then sorts, prunes, computes the trailing statistics, merges the
      discord linkage and writes one file per player.

    JavaScript values are embedded in [JS]: the primitive values a parsed JSON
    field can hold, truthiness, [||], [ToString] and [parseInt].  Numbers are
    integer valued (a mathematical integer, exact for magnitudes below 2^53)
    or [NaN]; strings are sequences of 8-bit characters, exact for ASCII text.
    What is stated of [ToString] and [parseInt] is stated inside these
    bounds ([JS.safe_integer], [JS.is_ascii]).

    The collaborators of the scripts are inputs of the model: the revisions
    that the fetch tasks parsed, the rows of the feed, the discord cache, the
    instant [now] and the contents of the two data directories.  [Date]
    parsing and formatting are parameters of the sections that use them.  A
    thrown error ends a run with [Failed], keeping what was written before. *)

From Stdlib Require Import ZArith Ascii String DecimalString.
From Stdlib Require Import DecimalPos DecimalFacts.
From Stdlib Require Import Sorted.
From stdpp Require Import gmap strings list fin_maps sorting.

Local Open Scope Z_scope.

(** ** JavaScript values *)

Module JS.

(** A JavaScript number restricted to the integers, or NaN. *)
Inductive num : Type :=
| Num (z : Z)
| NaN.

(** The primitive values of a field of a parsed JSON object; an absent
    field reads as [JUndefined]. *)
Inductive jsval : Type :=
| JUndefined
| JNull
| JBool (b : bool)
| JNum (n : num)
| JStr (s : string).

#[global] Instance num_eq_dec : EqDecision num.
Proof. solve_decision. Defined.

#[global] Instance jsval_eq_dec : EqDecision jsval.
Proof. solve_decision. Defined.

(** [ToBoolean]. *)
Definition truthy (v : jsval) : bool :=
  match v with
  | JUndefined | JNull => false
  | JBool b => b
  | JNum (Num z) => negb (z =? 0)
  | JNum NaN => false
  | JStr s => negb (String.eqb s "")
  end.

(** [a || b]. *)
Definition logical_or (a b : jsval) : jsval := if truthy a then a else b.

(** [a - b] on numbers. *)
Definition sub (a b : num) : num :=
  match a, b with
  | Num x, Num y => Num (x - y)
  | _, _ => NaN
  end.

(** [a <= b] and [a >= b] on numbers: false as soon as one side is NaN. *)
Definition le (a b : num) : bool :=
  match a, b with
  | Num x, Num y => x <=? y
  | _, _ => false
  end.

Definition ge (a b : num) : bool :=
  match a, b with
  | Num x, Num y => y <=? x
  | _, _ => false
  end.

(** The integers a number holds exactly: magnitudes up to
    [Number.MAX_SAFE_INTEGER]. *)
Definition MAX_SAFE_INTEGER : Z := 2 ^ 53 - 1.

Definition safe_integer (z : Z) : bool :=
  (- MAX_SAFE_INTEGER <=? z) && (z <=? MAX_SAFE_INTEGER).


(** An ASCII character, the same in every encoding of a string. *)
Definition is_ascii (c : ascii) : bool := (nat_of_ascii c <? 128)%nat.

(** [ToString] on primitives.  An integer is printed in plain decimal
    notation, as JavaScript prints it below 10^21 (from there on JavaScript
    switches to exponent notation, which is not modelled). *)
Definition ToString (v : jsval) : string :=
  match v with
  | JUndefined => "undefined"
  | JNull => "null"
  | JBool true => "true"
  | JBool false => "false"
  | JNum (Num z) => NilZero.string_of_int (Z.to_int z)
  | JNum NaN => "NaN"
  | JStr s => s
  end.

(** White space stripped by [parseInt] and [trim]: the ASCII part of
    StrWhiteSpaceChar (TAB, LF, VT, FF, CR, SP).  The white space outside
    ASCII (U+00A0, U+FEFF and the like) is not modelled: a string is read
    faithfully when the character that ends the run of white space is an
    ASCII one. *)
Definition is_ws (c : ascii) : bool :=
  let n := Z.of_nat (nat_of_ascii c) in
  ((9 <=? n) && (n <=? 13)) || (n =? 32).

Fixpoint trim_start (s : string) : string :=
  match s with
  | String c s' => if is_ws c then trim_start s' else s
  | EmptyString => EmptyString
  end.

(** The value of a character as a digit: 0-9, then a-z and A-Z for 10-35. *)
Definition digit_val (c : ascii) : option Z :=
  let n := Z.of_nat (nat_of_ascii c) in
  if (48 <=? n) && (n <=? 57) then Some (n - 48)
  else if (97 <=? n) && (n <=? 122) then Some (n - 87)
  else if (65 <=? n) && (n <=? 90) then Some (n - 55)
  else None.

(** The longest prefix of radix-[R] digits, read as an integer; [acc] is
    [None] until a first digit has been read. *)
Fixpoint digits_run (R : Z) (s : string) (acc : option Z) : option Z :=
  match s with
  | String c s' =>
      match digit_val c with
      | Some d =>
          if d <? R
          then digits_run R s' (Some (default 0 acc * R + d))
          else acc
      | None => acc
      end
  | EmptyString => acc
  end.

(** [parseInt(string)] with no radix argument: leading white space, an
    optional sign, an optional [0x]/[0X] prefix selecting radix 16, then the
    longest run of digits; NaN when that run is empty.  The run is read as
    the integer it denotes, which is the number JavaScript returns as long as
    it is a [safe_integer] (beyond, JavaScript rounds to a double). *)
Definition parseInt_string (s : string) : num :=
  let S0 := trim_start s in
  let '(sign, S1) :=
    match S0 with
    | String "-" r => (-1, r)
    | String "+" r => (1, r)
    | _ => (1, S0)
    end in
  let '(R, S2) :=
    match S1 with
    | String "0" (String "x" r) => (16, r)
    | String "0" (String "X" r) => (16, r)
    | _ => (10, S1)
    end in
  match digits_run R S2 None with
  | Some v => Num (sign * v)
  | None => NaN
  end.

(** [parseInt(v)]: the argument is first converted with [ToString]. *)
Definition parseInt (v : jsval) : num := parseInt_string (ToString v).

(** [s.endsWith(suffix)]. *)
Definition endsWith (s suffix : string) : bool :=
  let n := String.length s in
  let k := String.length suffix in
  (k <=? n)%nat && String.eqb (substring (n - k) k s) suffix.

End JS.

(** ** Insertion-ordered maps and sorting *)

(** A JavaScript [Map]: keys are compared by value, iteration follows the
    order of first insertion, and [set] on a key already present replaces the
    value where it stands. *)
Module JSMap.
Section ops.
Context {K V : Type} `{EqDecision K}.

Fixpoint get (k : K) (m : list (K * V)) : option V :=
  match m with
  | [] => None
  | (k', v) :: m' => if decide (k' = k) then Some v else get k m'
  end.

Definition has (k : K) (m : list (K * V)) : bool :=
  match get k m with Some _ => true | None => false end.

Fixpoint set (k : K) (v : V) (m : list (K * V)) : list (K * V) :=
  match m with
  | [] => [(k, v)]
  | (k', v') :: m' =>
      if decide (k' = k) then (k', v) :: m' else (k', v') :: set k v m'
  end.

Definition keys (m : list (K * V)) : list K := m.*1.
End ops.
End JSMap.

(** [Array.prototype.sort(cmp)]: the sort is stable, a comparator result that
    is NaN counts as 0, and [a] is moved behind [b] only when [cmp a b > 0].
    For a consistent comparator the result is the unique stable ordering,
    computed here by insertion. *)
Definition comes_after (v : JS.num) : bool :=
  match v with
  | JS.Num z => 0 <? z
  | JS.NaN => false
  end.

Fixpoint sort_insert {A} (cmp : A → A → JS.num) (x : A) (l : list A) : list A :=
  match l with
  | [] => [x]
  | y :: l' =>
      if comes_after (cmp x y) then y :: sort_insert cmp x l' else x :: l
  end.

Fixpoint sort {A} (cmp : A → A → JS.num) (l : list A) : list A :=
  match l with
  | [] => []
  | x :: l' => sort_insert cmp x (sort cmp l')
  end.

(** ** Data model *)

(** A raw player record of a population snapshot. *)
Module Raw.
Record t : Type := mk {
  fc : JS.jsval;
  name : JS.jsval;
  ev : JS.jsval;
  vr : JS.jsval
}.
End Raw.

Record HistoryEntry : Type := {
  date : string;
  vrChange : JS.num;
  totalVR : JS.num
}.

Record VrStats : Type := {
  last24Hours : JS.num;
  lastWeek : JS.num;
  lastMonth : JS.num
}.

(** The persisted unit. [vrStats = None] and [discord = JUndefined] stand for
    a record that does not carry the field. *)
Record PlayerRecord : Type := {
  name : JS.jsval;
  fc : JS.jsval;
  vr_history : list HistoryEntry;
  vrStats : option VrStats;
  discord : JS.jsval
}.

#[global] Instance HistoryEntry_eq_dec : EqDecision HistoryEntry.
Proof. solve_decision. Defined.

#[global] Instance VrStats_eq_dec : EqDecision VrStats.
Proof. solve_decision. Defined.

#[global] Instance PlayerRecord_eq_dec : EqDecision PlayerRecord.
Proof. solve_decision. Defined.

Definition with_name (v : JS.jsval) (r : PlayerRecord) : PlayerRecord :=
  {| name := v; fc := fc r; vr_history := vr_history r;
     vrStats := vrStats r; discord := discord r |}.

Definition with_history (h : list HistoryEntry) (r : PlayerRecord) : PlayerRecord :=
  {| name := name r; fc := fc r; vr_history := h;
     vrStats := vrStats r; discord := discord r |}.

Definition with_stats (s : VrStats) (r : PlayerRecord) : PlayerRecord :=
  {| name := name r; fc := fc r; vr_history := vr_history r;
     vrStats := Some s; discord := discord r |}.

Definition with_discord (v : JS.jsval) (r : PlayerRecord) : PlayerRecord :=
  {| name := name r; fc := fc r; vr_history := vr_history r;
     vrStats := vrStats r; discord := v |}.

Abbreviation PlayerMap := (list (JS.jsval * PlayerRecord)).

(** A file of a data directory: a JSON document holding a player record, or
    content that [readJson] rejects.  A document is kept as the record it
    holds.  JSON has no NaN ([writeJson] stores it as [null]), so the document
    of a record gives the record back when the record is [json_exact]. *)
Inductive File : Type :=
| JsonFile (data : PlayerRecord)
| Unreadable.

Abbreviation Dir := (gmap string File).


(** How a run ends: exit code 0, or [process.exit(1)] from the handler of
    a thrown error. *)
Inductive outcome : Type :=
| Completed
| Failed.

(** [parseInt(p.ev || p.vr || 0)], the rating of a raw record; both scripts
    read it with this same expression. *)
Definition currentVR (p : Raw.t) : JS.num :=
  JS.parseInt (JS.logical_or (JS.logical_or (Raw.ev p) (Raw.vr p)) (JS.JNum (JS.Num 0))).

(** [fc.replace(/[^a-zA-Z0-9-]/g, '_')]. *)
Definition is_safe_char (c : ascii) : bool :=
  let n := Z.of_nat (nat_of_ascii c) in
  ((97 <=? n) && (n <=? 122)) || ((65 <=? n) && (n <=? 90))
  || ((48 <=? n) && (n <=? 57)) || (n =? 45).

Fixpoint safeFC (s : string) : string :=
  match s with
  | EmptyString => EmptyString
  | String c s' => String (if is_safe_char c then c else "_"%char) (safeFC s')
  end.

(** The file name [`${safeFC}.json`] inside the target directory. *)
Definition fileName (s : string) : string := safeFC s +:+ ".json".

(** The write loop shared by both scripts: one [writeJson] per visited
    record; calling [replace] on a key that is not a string throws. *)
Definition writePlayer (k : JS.jsval) (data : PlayerRecord) (dir : Dir)
  : option Dir :=
  match k with
  | JS.JStr s => Some (<[fileName s := JsonFile data]> dir)
  | _ => None
  end.

(** ** The backfill script (archival pipeline) *)

Module Backfill.
Section run.
(** The time value of [new Date(s)], NaN for an invalid date. *)
Variable Date_parse : string → JS.num.

(** The per-record body of the fold of step 4. *)
Definition visit (date : string) (playerMap : PlayerMap) (p : Raw.t)
  : PlayerMap :=
  if negb (JS.truthy (Raw.fc p)) then playerMap
  else
    let playerMap1 :=
      if negb (JSMap.has (Raw.fc p) playerMap)
      then JSMap.set (Raw.fc p)
             {| name := JS.logical_or (Raw.name p) (JS.JStr "Unknown");
                fc := Raw.fc p;
                vr_history := [];
                vrStats := None;
                discord := JS.JUndefined |} playerMap
      else playerMap in
    match JSMap.get (Raw.fc p) playerMap1 with
    | None => playerMap1
    | Some entry =>
        let entry1 := with_name (JS.logical_or (Raw.name p) (name entry)) entry in
        let currentVR := currentVR p in
        let prevVR :=
          match last (vr_history entry1) with
          | Some lastHistory => totalVR lastHistory
          | None => currentVR
          end in
        JSMap.set (Raw.fc p)
          (with_history
             (vr_history entry1 ++
              [{| date := date;
                  vrChange := JS.sub currentVR prevVR;
                  totalVR := currentVR |}]) entry1)
          playerMap1
    end.

(** The snapshot map filled by the fetch tasks: one [set] per revision
    whose content parsed, in completion order. *)
Definition collect (fetched : list (string * list Raw.t))
  : list (string * list Raw.t) :=
  foldl (λ snapshotMap '(date, players), JSMap.set date players snapshotMap)
        [] fetched.

Definition sortedDates (snapshotMap : list (string * list Raw.t))
  : list string :=
  sort (λ a b, JS.sub (Date_parse a) (Date_parse b)) (JSMap.keys snapshotMap).

(** Step 4: build the per-player history. *)
Definition build (snapshotMap : list (string * list Raw.t)) : PlayerMap :=
  foldl (λ playerMap date,
           match JSMap.get date snapshotMap with
           | Some players => foldl (visit date) playerMap players
           | None => playerMap
           end)
        [] (sortedDates snapshotMap).

(** Step 5: write the files, in map order. *)
Fixpoint writeAll (entries : PlayerMap) (dir : Dir) : Dir * outcome :=
  match entries with
  | [] => (dir, Completed)
  | (k, data) :: rest =>
      match writePlayer k data dir with
      | Some dir' => writeAll rest dir'
      | None => (dir, Failed)
      end
  end.

(** The whole run, from the fetched revisions to the archive directory
    (emptied first). *)
Definition run (fetched : list (string * list Raw.t)) : Dir * outcome :=
  writeAll (build (collect fetched)) ∅.
End run.
End Backfill.

(** ** scripts/generate_stats.js (live pipeline) *)

Module GenerateStats.

(** The [data] of a feed row once a string payload went through
    [JSON.parse]: an array of records, an object whose values are records
    (listed in property order), or a string that does not parse. *)
Inductive RowData : Type :=
| DataArray (players : list Raw.t)
| DataObject (entries : list (string * Raw.t))
| DataBadString.

Record Row : Type := {
  timestamp : Z;
  data : RowData
}.

(** The two data directories; [archive = None] when [ARCHIVE_DIR] does not
    exist. [PLAYERS_DIR] always exists after [ensureDir]. *)
Record FS : Type := {
  archive : option Dir;
  players : Dir
}.

Definition oneDay : Z := 24 * 60 * 60 * 1000.
Definition sevenDays : Z := 7 * oneDay.
Definition thirtyDays : Z := 30 * oneDay.

(** The names every object inherits from [Object.prototype]. *)
Definition Object_prototype : list string :=
  [ "constructor"; "__defineGetter__"; "__defineSetter__"; "hasOwnProperty";
    "__lookupGetter__"; "__lookupSetter__"; "isPrototypeOf";
    "propertyIsEnumerable"; "toString"; "valueOf"; "__proto__";
    "toLocaleString" ].

(** [discordCache[key]] reaches a member of [Object.prototype]: [key] is one
    of its names and the cache has no property of its own under that name.
    The member is a function (an object for [__proto__]), not a value of
    [JS.jsval]. *)
Definition inherits (discordCache : gmap string JS.jsval) (key : string)
  : bool :=
  bool_decide (key ∈ Object_prototype)
  && bool_decide (discordCache !! key = None).

(** The discord profile sync, on the stored value and the cache entry. *)
Definition discordSync (stored cacheProfile : JS.jsval) : JS.jsval :=
  let stored1 :=
    if negb (JS.truthy stored) then JS.JStr "unknown" else stored in
  if JS.truthy cacheProfile then
    if bool_decide (cacheProfile = JS.JStr "not_linked") then
      if bool_decide (stored1 = JS.JStr "unknown")
         || bool_decide (stored1 = JS.JStr "not_linked")
      then JS.JStr "not_linked"
      else stored1
    else cacheProfile
  else stored1.

Section run.
(** The time value of [new Date(s)], NaN for an invalid date. *)
Variable Date_parse : string → JS.num.
(** [new Date(ms).toISOString()]. *)
Variable toISOString : Z → string.

(** Step 1: the directory the base is loaded from. *)
Definition loadDir (fs : FS) : Dir :=
  match archive fs with
  | Some dir => dir
  | None => players fs
  end.

Fixpoint loadFiles (files : list (string * File)) (playerMap : PlayerMap)
  : option PlayerMap :=
  match files with
  | [] => Some playerMap
  | (file, content) :: rest =>
      if negb (JS.endsWith file ".json") then loadFiles rest playerMap
      else
        match content with
        | JsonFile data => loadFiles rest (JSMap.set (fc data) data playerMap)
        | Unreadable => None
        end
  end.

Definition loadBase (fs : FS) : option PlayerMap :=
  loadFiles (map_to_list (loadDir fs)) [].

(** Step 3: the per-record body of the fold over a row. *)
Definition visit (rowDate : string) (playerMap : PlayerMap) (p : Raw.t)
  : PlayerMap :=
  if negb (JS.truthy (Raw.fc p)) then playerMap
  else
    let playerMap1 :=
      if negb (JSMap.has (Raw.fc p) playerMap)
      then JSMap.set (Raw.fc p)
             {| name := JS.logical_or (Raw.name p) (JS.JStr "Unknown");
                fc := Raw.fc p;
                vr_history := [];
                vrStats := None;
                discord := JS.JStr "unknown" |} playerMap
      else playerMap in
    match JSMap.get (Raw.fc p) playerMap1 with
    | None => playerMap1
    | Some entry =>
        let entry1 := with_name (JS.logical_or (Raw.name p) (name entry)) entry in
        let currentVR := currentVR p in
        let exists_ :=
          existsb (λ h, bool_decide (date h = rowDate)) (vr_history entry1) in
        if negb exists_ then
          let lastTotal :=
            match last (vr_history entry1) with
            | Some h => totalVR h
            | None => currentVR
            end in
          JSMap.set (Raw.fc p)
            (with_history
               (vr_history entry1 ++
                [{| date := rowDate;
                    vrChange := JS.sub currentVR lastTotal;
                    totalVR := currentVR |}]) entry1)
            playerMap1
        else JSMap.set (Raw.fc p) entry1 playerMap1
    end.

Definition rowDate (row : Row) : string :=
  toISOString (timestamp row * 1000).

Definition processRow (playerMap : PlayerMap) (row : Row) : PlayerMap :=
  match data row with
  | DataBadString => playerMap
  | DataArray playersInRow => foldl (visit (rowDate row)) playerMap playersInRow
  | DataObject entries => foldl (visit (rowDate row)) playerMap entries.*2
  end.

Definition sortRows (cfHistoryRows : list Row) : list Row :=
  sort (λ a b, JS.sub (JS.Num (timestamp a)) (JS.Num (timestamp b)))
       cfHistoryRows.

Definition processLive (playerMap : PlayerMap) (cfHistoryRows : list Row)
  : PlayerMap :=
  foldl processRow playerMap (sortRows cfHistoryRows).

(** Step 4: sort and prune one history. *)
Definition sortHistory (h : list HistoryEntry) : list HistoryEntry :=
  sort (λ a b, JS.sub (Date_parse (date a)) (Date_parse (date b))) h.

Definition prune (now : Z) (h : list HistoryEntry) : list HistoryEntry :=
  filter (λ e, JS.le (JS.sub (JS.Num now) (Date_parse (date e)))
                     (JS.Num thirtyDays) = true) h.

(** [getVRAt(msAgo)] over a history whose first entry is [first]. *)
Definition getVRAt (now : Z) (first : HistoryEntry) (h : list HistoryEntry)
           (msAgo : Z) : JS.num :=
  let targetTime := now - msAgo in
  match find (λ e, JS.ge (Date_parse (date e)) (JS.Num targetTime)) h with
  | Some entry => totalVR entry
  | None => totalVR first
  end.

(** The body of the loop of step 4 up to the write; the flag tells whether
    the body goes on to the write ([false] for [continue]).  The cache entry
    [discordCache[fc]] is read among the properties the cache holds itself,
    which is what JavaScript reads unless the key [inherits] a member of
    [Object.prototype]. *)
Definition finalize (now : Z) (discordCache : gmap string JS.jsval)
           (k : JS.jsval) (data : PlayerRecord) : PlayerRecord * bool :=
  let data1 := with_history (prune now (sortHistory (vr_history data))) data in
  match vr_history data1 with
  | [] => (data1, false)
  | first :: _ =>
      let currentTotal := totalVR (List.last (vr_history data1) first) in
      let getVRAt := getVRAt now first (vr_history data1) in
      let data2 :=
        with_stats
          {| last24Hours := JS.sub currentTotal (getVRAt oneDay);
             lastWeek := JS.sub currentTotal (getVRAt sevenDays);
             lastMonth := JS.sub currentTotal (getVRAt thirtyDays) |} data1 in
      let cacheProfile :=
        default JS.JUndefined (discordCache !! JS.ToString k) in
      (with_discord (discordSync (discord data2) cacheProfile) data2, true)
  end.

(** The loop of step 4 over the map entries, threading the players
    directory; returns the records as the loop left them. *)
Fixpoint finalizeAll (now : Z) (discordCache : gmap string JS.jsval)
         (entries : PlayerMap) (dir : Dir) : PlayerMap * Dir * outcome :=
  match entries with
  | [] => ([], dir, Completed)
  | (k, data) :: rest =>
      let '(data', save) := finalize now discordCache k data in
      if save then
        match writePlayer k data' dir with
        | Some dir1 =>
            let '(rest', dir', o) := finalizeAll now discordCache rest dir1 in
            ((k, data') :: rest', dir', o)
        | None => ((k, data') :: rest, dir, Failed)
        end
      else
        let '(rest', dir', o) := finalizeAll now discordCache rest dir in
        ((k, data') :: rest', dir', o)
  end.

(** The merged player map, before step 4. *)
Definition merged (fs : FS) (cfHistoryRows : list Row) : option PlayerMap :=
  match loadBase fs with
  | Some playerMap => Some (processLive playerMap cfHistoryRows)
  | None => None
  end.

(** The whole run, for a configured feed that answered with the rows
    [cfHistoryRows]; the archive is removed by a run that reaches step 5. *)
Definition run (fs : FS) (cfHistoryRows : list Row)
           (discordCache : gmap string JS.jsval) (now : Z) : FS * outcome :=
  match merged fs cfHistoryRows with
  | None => (fs, Failed)
  | Some playerMap =>
      match finalizeAll now discordCache playerMap (players fs) with
      | (_, dir, Completed) => ({| archive := None; players := dir |}, Completed)
      | (_, dir, Failed) => ({| archive := archive fs; players := dir |}, Failed)
      end
  end.
End run.
End GenerateStats.

(** ** A reference clock

    The scripts rely on the host for [Date] parsing and formatting, which the
    sections above take as parameters.  This module gives the instance used
    to run the model on concrete inputs: [toISOString] for the years 0000 to
    9999 and the time value of a string in that same 24-character format
    (NaN for any other string). *)

Module Clock.

(** Day, month and year of a day count since 1970-01-01 (proleptic
    Gregorian calendar). *)
Definition civil_from_days (days : Z) : Z * Z * Z :=
  let z := days + 719468 in
  let era := z / 146097 in
  let doe := z - era * 146097 in
  let yoe := (doe - doe / 1460 + doe / 36524 - doe / 146096) / 365 in
  let doy := doe - (365 * yoe + yoe / 4 - yoe / 100) in
  let mp := (5 * doy + 2) / 153 in
  let d := doy - (153 * mp + 2) / 5 + 1 in
  let m := if mp <? 10 then mp + 3 else mp - 9 in
  let y := yoe + era * 400 + (if m <=? 2 then 1 else 0) in
  (y, m, d).

Definition days_from_civil (y m d : Z) : Z :=
  let y' := if m <=? 2 then y - 1 else y in
  let era := y' / 400 in
  let yoe := y' - era * 400 in
  let doy := (153 * (if 2 <? m then m - 3 else m + 9) + 2) / 5 + d - 1 in
  let doe := yoe * 365 + yoe / 4 - yoe / 100 + doy in
  era * 146097 + doe - 719468.

(** [n] in decimal, zero padded to [width] digits. *)
Fixpoint pad (width : nat) (n : Z) : string :=
  match width with
  | O => EmptyString
  | S w =>
      pad w (n / 10) +:+
      String (ascii_of_nat (Z.to_nat (48 + n mod 10))) EmptyString
  end.

Definition toISOString (ms : Z) : string :=
  let '(y, m, d) := civil_from_days (ms / 86400000) in
  let r := ms mod 86400000 in
  pad 4 y +:+ "-" +:+ pad 2 m +:+ "-" +:+ pad 2 d +:+ "T" +:+
  pad 2 (r / 3600000) +:+ ":" +:+ pad 2 (r / 60000 mod 60) +:+ ":" +:+
  pad 2 (r / 1000 mod 60) +:+ "." +:+ pad 3 (r mod 1000) +:+ "Z".

(** The decimal number written by a string of digits. *)
Fixpoint digits (s : string) (acc : Z) : option Z :=
  match s with
  | EmptyString => Some acc
  | String c s' =>
      let n := Z.of_nat (nat_of_ascii c) in
      if (48 <=? n) && (n <=? 57) then digits s' (acc * 10 + (n - 48))
      else None
  end.

Definition field (s : string) (pos len : nat) : option Z :=
  digits (substring pos len s) 0.

Definition Date_parse (s : string) : JS.num :=
  match field s 0 4, field s 5 2, field s 8 2,
        field s 11 2, field s 14 2, field s 17 2, field s 20 3 with
  | Some y, Some m, Some d, Some hh, Some mm, Some ss, Some ms =>
      let ms' :=
        days_from_civil y m d * 86400000
        + hh * 3600000 + mm * 60000 + ss * 1000 + ms in
      if String.eqb (toISOString ms') s then JS.Num ms' else JS.NaN
  | _, _, _, _, _, _, _ => JS.NaN
  end.

End Clock.

(** ** Observations and properties of histories *)

(** The history a player map holds for a key (empty when the key is absent). *)
Definition history_of (k : JS.jsval) (m : PlayerMap) : list HistoryEntry :=
  match JSMap.get k m with
  | Some r => vr_history r
  | None => []
  end.

Definition dates (h : list HistoryEntry) : list string := date <$> h.

(** The entry both folds append for record [p] at [d] to history [h]. *)
Definition nextEntry (d : string) (p : Raw.t) (h : list HistoryEntry)
  : HistoryEntry :=
  {| date := d;
     vrChange :=
       JS.sub (currentVR p)
              (match last h with Some e => totalVR e | None => currentVR p end);
     totalVR := currentVR p |}.

(** How many records of a snapshot carry the key [k]. *)
Definition occurrences (k : JS.jsval) (players : list Raw.t) : nat :=
  length (filter (λ p, JS.truthy (Raw.fc p) = true ∧ Raw.fc p = k) players).

(** The dedup guard, as a property of the per-record step of a fold. *)
Definition dedup_guard (visit : string → PlayerMap → Raw.t → PlayerMap) : Prop :=
  ∀ d m p,
    d ∈ dates (history_of (Raw.fc p) m) →
    history_of (Raw.fc p) (visit d m p) = history_of (Raw.fc p) m.

(** Every entry but the first carries the difference of consecutive totals. *)
Definition deltas_ok (h : list HistoryEntry) : Prop :=
  ∀ i e1 e2,
    h !! i = Some e1 → h !! S i = Some e2 →
    vrChange e2 = JS.sub (totalVR e2) (totalVR e1).

(** The first entry carries the difference of its total with itself. *)
Definition first_delta_zero (h : list HistoryEntry) : Prop :=
  ∀ e, head h = Some e → vrChange e = JS.sub (totalVR e) (totalVR e).

(** The first entry as the specification words it: [vrChange == totalVR]. *)
Definition first_delta_is_total (h : list HistoryEntry) : Prop :=
  ∀ e, head h = Some e → vrChange e = totalVR e.

(** The rating as the specification words it: [ev] when the field is there,
    else [vr], else 0, read as an integer, with 0 for input that is not
    numeric. *)
Definition spec_currentVR (p : Raw.t) : JS.num :=
  let v :=
    if decide (Raw.ev p = JS.JUndefined) then
      if decide (Raw.vr p = JS.JUndefined) then JS.JNum (JS.Num 0)
      else Raw.vr p
    else Raw.ev p in
  match JS.parseInt v with
  | JS.Num z => JS.Num z
  | JS.NaN => JS.Num 0
  end.

(** The merge as the specification words it: applied to every player. *)
Definition spec_discord (discordCache : gmap string JS.jsval) (k : JS.jsval)
           (data : PlayerRecord) : JS.jsval :=
  GenerateStats.discordSync (discord data)
    (default JS.JUndefined (discordCache !! JS.ToString k)).

(** The records of a feed row that step 3 visits. *)
Definition rowPlayers (row : GenerateStats.Row) : list Raw.t :=
  match GenerateStats.data row with
  | GenerateStats.DataArray ps => ps
  | GenerateStats.DataObject es => es.*2
  | GenerateStats.DataBadString => []
  end.

(** ** Observations of the stats and pruning engine *)

(** The history step 4 keeps for a record: sorted, then pruned. *)
Definition pruned (Date_parse : string → JS.num) (now : Z) (data : PlayerRecord)
  : list HistoryEntry :=
  GenerateStats.prune Date_parse now
    (GenerateStats.sortHistory Date_parse (vr_history data)).

(** The entry's date parses to an instant at or after [t]. *)
Definition at_or_after (Date_parse : string → JS.num) (t : Z) (e : HistoryEntry)
  : Prop :=
  ∃ z, Date_parse (date e) = JS.Num z ∧ t ≤ z.

(** [r] is the reference point of a window starting at [t]: the first entry
    of [h] at or after [t], or the first entry of [h] when there is none. *)
Definition window_reference (Date_parse : string → JS.num) (t : Z)
           (h : list HistoryEntry) (r : HistoryEntry) : Prop :=
  (∃ i, h !! i = Some r ∧ at_or_after Date_parse t r
        ∧ ∀ j e, (j < i)%nat → h !! j = Some e → ¬ at_or_after Date_parse t e)
  ∨ ((∀ e, e ∈ h → ¬ at_or_after Date_parse t e) ∧ head h = Some r).

(** The instant of an entry whose date parses. *)
Definition time_of (Date_parse : string → JS.num) (e : HistoryEntry) : Z :=
  match Date_parse (date e) with
  | JS.Num t => t
  | JS.NaN => 0
  end.

(** The order of two entries by the instant of their dates. *)
Definition earlier (Date_parse : string → JS.num) (a b : HistoryEntry) : Prop :=
  time_of Date_parse a ≤ time_of Date_parse b.

(** The [writeJson] calls of the loop of step 4, in order. *)
Definition writes (Date_parse : string → JS.num) (now : Z)
           (discordCache : gmap string JS.jsval) (entries : PlayerMap)
  : list (string * PlayerRecord) :=
  omap (λ '(k, data),
          match GenerateStats.finalize Date_parse now discordCache k data, k with
          | (data', true), JS.JStr s => Some (fileName s, data')
          | _, _ => None
          end) entries.

Definition applyWrites (ws : list (string * PlayerRecord)) (dir : Dir) : Dir :=
  foldl (λ acc '(file, data), <[file := JsonFile data]> acc) dir ws.

(** The records of the map as the loop of step 4 leaves them. *)
Definition finalized (Date_parse : string → JS.num) (now : Z)
           (discordCache : gmap string JS.jsval) (entries : PlayerMap)
  : PlayerMap :=
  (λ '(k, data),
     (k, (GenerateStats.finalize Date_parse now discordCache k data).1))
  <$> entries.

(** ** Sample inputs *)

Module Sample.
Definition ann : Raw.t :=
  Raw.mk (JS.JStr "1234-5678-9012") (JS.JStr "Ann")
         (JS.JNum (JS.Num 5000)) JS.JUndefined.

Definition ann' : Raw.t :=
  Raw.mk (JS.JStr "1234-5678-9012") (JS.JStr "Ann")
         (JS.JNum (JS.Num 5040)) JS.JUndefined.

Definition bob : Raw.t :=
  Raw.mk (JS.JStr "0000-1111-2222") (JS.JStr "Bob")
         JS.JUndefined (JS.JStr "7200").

Definition day30 : string := "2024-01-30T00:00:00.000Z".
Definition day31 : string := "2024-01-31T00:00:00.000Z".

(** Two revisions, as the fetch tasks delivered them. *)
Definition fetched : list (string * list Raw.t) :=
  [(day31, [ann'; bob]); (day30, [ann])].

(** A revision that lists the same player twice. *)
Definition fetched_twice : list (string * list Raw.t) :=
  [(day31, [ann; ann'])].

(** Two feed rows for the same two instants (epoch seconds). *)
Definition rows : list GenerateStats.Row :=
  [ {| GenerateStats.timestamp := 1706659200;
       GenerateStats.data := GenerateStats.DataArray [ann'; bob] |};
    {| GenerateStats.timestamp := 1706572800;
       GenerateStats.data := GenerateStats.DataArray [ann] |} ].

(** Two players whose keys differ only in the separator. *)
Definition eve : Raw.t :=
  Raw.mk (JS.JStr "1234 5678 9012") (JS.JStr "Eve")
         (JS.JNum (JS.Num 6100)) JS.JUndefined.

Definition eva : Raw.t :=
  Raw.mk (JS.JStr "1234.5678.9012") (JS.JStr "Eva")
         (JS.JNum (JS.Num 8800)) JS.JUndefined.

(** One hour after [day31], in milliseconds since the epoch. *)
Definition now : Z := 1706659200000 + 3600000.

Definition emptyFS : GenerateStats.FS :=
  {| GenerateStats.archive := None; GenerateStats.players := ∅ |}.

(** A feed row stamped with the epoch itself, long before [now]. *)
Definition old_rows : list GenerateStats.Row :=
  [ {| GenerateStats.timestamp := 0;
       GenerateStats.data := GenerateStats.DataArray [ann] |} ].

(** A stored record with one entry 30 days before [now] to the
    millisecond, one a millisecond older, and a fresh one. *)
Definition stored : PlayerRecord :=
  {| name := JS.JStr "Ann"; fc := JS.JStr "1234-5678-9012";
     vr_history :=
       [ {| date := "2024-01-01T00:59:59.999Z"; vrChange := JS.Num 0;
            totalVR := JS.Num 4000 |};
         {| date := "2024-01-01T01:00:00.000Z"; vrChange := JS.Num 900;
            totalVR := JS.Num 4900 |};
         {| date := day31; vrChange := JS.Num 100;
            totalVR := JS.Num 5000 |} ];
     vrStats := None; discord := JS.JStr "unknown" |}.

(** A stored record whose only entry is older than 30 days at [now]. *)
Definition lapsed : PlayerRecord :=
  {| name := JS.JStr "Ann"; fc := JS.JStr "1234-5678-9012";
     vr_history :=
       [ {| date := "2023-06-01T00:00:00.000Z"; vrChange := JS.Num 0;
            totalVR := JS.Num 5000 |} ];
     vrStats := None; discord := JS.JStr "unknown" |}.

(** A discord cache that holds a profile for that player. *)
Definition linked : gmap string JS.jsval :=
  {[ "1234-5678-9012" := JS.JStr "linked:xyz" ]}.

(** Totals 0, 50 and 120 at 10, 5 and 0 days before [day31]. *)
Definition spaced : PlayerRecord :=
  {| name := JS.JStr "Ann"; fc := JS.JStr "1234-5678-9012";
     vr_history :=
       [ {| date := "2024-01-21T00:00:00.000Z"; vrChange := JS.Num 0;
            totalVR := JS.Num 0 |};
         {| date := "2024-01-26T00:00:00.000Z"; vrChange := JS.Num 50;
            totalVR := JS.Num 50 |};
         {| date := day31; vrChange := JS.Num 70;
            totalVR := JS.Num 120 |} ];
     vrStats := None; discord := JS.JStr "unknown" |}.
End Sample.

(** ** The revision list of the backfill script *)

Module CommitLog.

(** [s.split(sep)] for a one-character separator, as the first piece and
    the pieces after it (the result of [split] is never empty). *)
Fixpoint split (sep : ascii) (s : string) : string * list string :=
  match s with
  | EmptyString => (EmptyString, [])
  | String c s' =>
      let '(piece, pieces) := split sep s' in
      if Ascii.eqb c sep then (EmptyString, piece :: pieces)
      else (String c piece, pieces)
  end.

(** [!l.trim()]: the line holds white space only. *)
Fixpoint blank (l : string) : bool :=
  match l with
  | EmptyString => true
  | String c l' => JS.is_ws c && blank l'
  end.

(** A commit of the list; [date] is missing when the line has no [|]. *)
Record Commit : Type := {
  hash : string;
  date : option string
}.

(** [const [hash, date] = line.split('|')]. *)
Definition ofLine (line : string) : Commit :=
  let '(piece, pieces) := split "|"%char line in
  {| hash := piece; date := head pieces |}.

(** Step 2: the commits of the log output, oldest first. *)
Definition commits (logOutput : string) : list Commit :=
  let '(line, lines) := split "010"%char logOutput in
  reverse (ofLine <$> filter (λ l, blank l = false) (line :: lines)).

(** The output of [git log --pretty=format:"%H|%aI"] for a list of commits,
    newest first: one line per commit, a newline between two lines. *)
Fixpoint logOutputOf (cs : list (string * string)) : string :=
  match cs with
  | [] => EmptyString
  | [(h, d)] => h +:+ "|" +:+ d
  | (h, d) :: cs' =>
      h +:+ "|" +:+ d +:+ String "010"%char (logOutputOf cs')
  end.

(** The string does not hold the character [sep]. *)
Fixpoint free (sep : ascii) (s : string) : bool :=
  match s with
  | EmptyString => true
  | String c s' => negb (Ascii.eqb c sep) && free sep s'
  end.

(** The string holds neither of the two separators of the log. *)
Definition plain (s : string) : bool := free "|"%char s && free "010"%char s.

End CommitLog.

(** ** The feed of scripts/generate_stats.js *)

Module Feed.

(** The [results] property of a response object. *)
Inductive Results : Type :=
| ResultsArray (rows : list GenerateStats.Row)
| ResultsFalsy
| ResultsOther.

(** A JSON value as far as step 2 looks into it: an array of rows, an
    object, [null], or a number, boolean or string. *)
Inductive Json : Type :=
| JsonArray (rows : list GenerateStats.Row)
| JsonObject (results : Results)
| JsonNull
| JsonScalar.

(** [historyRes.data]: a value the client already parsed (not a string), or
    the text of the body. *)
Inductive Body : Type :=
| Structured (value : Json)
| Text (s : string).

Section run.
(** [JSON.parse]; [None] when it throws. *)
Variable JSON_parse : string → option Json.
Variable Date_parse : string → JS.num.
Variable toISOString : Z → string.

(** The value of [cfHistoryRows] after the parsing of the response; [None]
    when that value is not an array, so that the [sort] call throws. *)
Definition cfHistoryRows (data : Body) : option (list GenerateStats.Row) :=
  match data with
  | Structured (JsonArray rows) => Some rows
  | Structured (JsonObject (ResultsArray rows)) => Some rows
  | Structured _ => Some []
  | Text s =>
      match JSON_parse s with
      | Some (JsonArray parsed) => Some parsed
      | Some (JsonObject (ResultsArray rows)) => Some rows
      | Some (JsonObject ResultsFalsy) => Some []
      | Some (JsonObject ResultsOther) => None
      | Some JsonNull => Some []
      | Some JsonScalar => Some []
      | None => Some []
      end
  end.

(** [dcRes.data || {}], and [{}] when the request fails. *)
Definition discordCache (dcRes : option (gmap string JS.jsval))
  : gmap string JS.jsval :=
  default ∅ dcRes.

(** The run with its environment: the configured base URL, the response of
    the feed ([None] when the request fails) and that of the discord
    endpoint. *)
Definition main (fs : GenerateStats.FS) (CF_WORKER_URL : option string)
           (historyRes : option Body) (dcRes : option (gmap string JS.jsval))
           (now : Z) : GenerateStats.FS * outcome :=
  match GenerateStats.loadBase fs with
  | None => (fs, Failed)
  | Some _ =>
      match CF_WORKER_URL with
      | None => (fs, Failed)
      | Some url =>
          if String.eqb url "" then (fs, Failed)
          else
            match historyRes with
            | None => (fs, Failed)
            | Some res =>
                match cfHistoryRows res with
                | None => (fs, Failed)
                | Some rows =>
                    GenerateStats.run Date_parse toISOString fs rows
                      (discordCache dcRes) now
                end
            end
      end
  end.
End run.
End Feed.

(** ** Further observations *)

(** The characters a file name is made of. *)
Definition is_name_char (c : ascii) : bool :=
  is_safe_char c || Ascii.eqb c "_"%char.

(** The entries of a map are stored under their own [fc]. *)
Definition keyed_by_fc (m : PlayerMap) : Prop :=
  ∀ k r, (k, r) ∈ m → fc r = k.

(** Every record of the map carries a name that is not empty. *)
Definition named (m : PlayerMap) : Prop :=
  ∀ k r, (k, r) ∈ m → JS.truthy (name r) = true.



(** ** Proof automation *)

(** Splits a membership hypothesis over a literal list into its cases. *)
Ltac elem_cases H :=
  repeat (apply elem_of_cons in H as [H|H]; [subst|]);
  try (by apply not_elem_of_nil in H).

(** Exposes the digit run that [parseInt] reads in a string that starts with
    a digit, or with a minus sign and a digit. *)
Ltac parseInt_expose :=
  lazymatch goal with
  | |- JS.parseInt_string (String "-" (String ?c ?s)) = _ =>
      change (JS.parseInt_string (String "-" (String c s)))
        with (match JS.digits_run 10 (String c s) None with
              | Some v => JS.Num (-1 * v)
              | None => JS.NaN
              end)
  | |- JS.parseInt_string (String ?c ?s) = _ =>
      change (JS.parseInt_string (String c s))
        with (match JS.digits_run 10 (String c s) None with
              | Some v => JS.Num (1 * v)
              | None => JS.NaN
              end)
  end.

(** Settles integer comparisons that linear arithmetic decides. *)
Ltac decide_cmp :=
  repeat match goal with
    | |- context [?a <? ?b] =>
        first [ rewrite (proj2 (Z.ltb_lt a b)) by lia
              | rewrite (proj2 (Z.ltb_ge a b)) by lia ]
    | |- context [?a <=? ?b] =>
        first [ rewrite (proj2 (Z.leb_le a b)) by lia
              | rewrite (proj2 (Z.leb_gt a b)) by lia ]
    end.

(** ** Facts about maps, folds and sorting *)

Section jsmap_facts.
Context {K V : Type} `{EqDecision K}.
Implicit Types (m : list (K * V)).

Lemma get_set_eq k v m : JSMap.get k (JSMap.set k v m) = Some v.
Proof.
  induction m as [|[k' v'] m IH]; simpl.
  - by rewrite decide_True.
  - destruct (decide (k' = k)) as [->|Hne]; simpl.
    + by rewrite decide_True.
    + by rewrite decide_False.
Qed.

Lemma get_set_ne k k' v m :
  k ≠ k' → JSMap.get k' (JSMap.set k v m) = JSMap.get k' m.
Proof.
  intros Hne. induction m as [|[k0 v0] m IH]; simpl.
  - by rewrite decide_False.
  - destruct (decide (k0 = k)) as [->|Hk]; simpl.
    + by rewrite !decide_False.
    + destruct (decide (k0 = k')); [done | apply IH].
Qed.

Lemma keys_set_in k v m :
  JSMap.get k m ≠ None → JSMap.keys (JSMap.set k v m) = JSMap.keys m.
Proof.
  unfold JSMap.keys. induction m as [|[k0 v0] m IH]; simpl; [done|].
  destruct (decide (k0 = k)) as [->|Hk]; simpl; [done|].
  intros Hget. f_equal. by apply IH.
Qed.

Lemma keys_set_new k v m :
  JSMap.get k m = None → JSMap.keys (JSMap.set k v m) = JSMap.keys m ++ [k].
Proof.
  unfold JSMap.keys. induction m as [|[k0 v0] m IH]; simpl; [done|].
  destruct (decide (k0 = k)) as [->|Hk]; simpl; [done|].
  intros Hget. f_equal. by apply IH.
Qed.

Lemma get_None_keys k m : JSMap.get k m = None ↔ k ∉ JSMap.keys m.
Proof.
  unfold JSMap.keys. induction m as [|[k0 v0] m IH]; simpl.
  - split; [intros _; apply not_elem_of_nil | done].
  - rewrite not_elem_of_cons.
    destruct (decide (k0 = k)) as [->|Hk].
    + split; [done | by intros [? _]].
    + rewrite IH. split; [by intros ?; split; [congruence|] | by intros [_ ?]].
Qed.

Lemma keys_set_NoDup k v m :
  NoDup (JSMap.keys m) → NoDup (JSMap.keys (JSMap.set k v m)).
Proof.
  intros Hnd. destruct (JSMap.get k m) eqn:Hget.
  - rewrite keys_set_in; [done | congruence].
  - rewrite keys_set_new by done.
    apply NoDup_app. split_and!; [done | | apply NoDup_singleton].
    intros x Hx ->%list_elem_of_singleton. by apply get_None_keys in Hget.
Qed.

Lemma get_Some_elem k v m : JSMap.get k m = Some v → (k, v) ∈ m.
Proof.
  induction m as [|[k0 v0] m IH]; simpl; [done|].
  destruct (decide (k0 = k)) as [->|Hk].
  - intros [= ->]. apply list_elem_of_here.
  - intros Hget. apply list_elem_of_further, IH, Hget.
Qed.
End jsmap_facts.

Lemma foldl_invariant {A B} (f : A → B → A) (I : A → Prop) (l : list B) :
  (∀ a b, b ∈ l → I a → I (f a b)) → ∀ a, I a → I (foldl f a l).
Proof.
  induction l as [|b l IH]; simpl; intros Hstep a Ha; [done|].
  apply IH.
  - intros a' b' Hb'. apply Hstep. by apply list_elem_of_further.
  - apply Hstep; [apply list_elem_of_here | done].
Qed.

Lemma sort_insert_perm {A} (cmp : A → A → JS.num) x l :
  sort_insert cmp x l ≡ₚ x :: l.
Proof.
  induction l as [|y l IH]; simpl; [done|].
  destruct (comes_after (cmp x y)); [|done].
  rewrite IH. apply Permutation_swap.
Qed.

Lemma sort_perm {A} (cmp : A → A → JS.num) l : sort cmp l ≡ₚ l.
Proof.
  induction l as [|x l IH]; simpl; [done|].
  by rewrite sort_insert_perm, IH.
Qed.

Lemma elem_of_sort {A} (cmp : A → A → JS.num) x l : x ∈ sort cmp l ↔ x ∈ l.
Proof. by rewrite sort_perm. Qed.

(** ** The per-record step of both folds, seen through [history_of] *)

Lemma existsb_date d (h : list HistoryEntry) :
  existsb (λ e, bool_decide (date e = d)) h = bool_decide (d ∈ dates h).
Proof.
  unfold dates. induction h as [|e h IH]; simpl.
  - done.
  - rewrite IH. destruct (decide (date e = d)) as [<-|Hne].
    + rewrite (bool_decide_eq_true_2 (date e = date e)) by done. simpl.
      symmetry. apply bool_decide_eq_true, list_elem_of_here.
    + rewrite (bool_decide_eq_false_2 (date e = d)) by done. simpl.
      apply bool_decide_ext. rewrite elem_of_cons.
      split; [by right | by intros [?|?]; [congruence|]].
Qed.

Lemma backfill_visit_same d m p :
  JS.truthy (Raw.fc p) = true →
  history_of (Raw.fc p) (Backfill.visit d m p) =
  history_of (Raw.fc p) m ++ [nextEntry d p (history_of (Raw.fc p) m)].
Proof.
  intros Ht. unfold Backfill.visit, history_of, JSMap.has. rewrite Ht. simpl.
  destruct (JSMap.get (Raw.fc p) m) as [r|] eqn:Hget; simpl.
  - rewrite Hget. by rewrite get_set_eq.
  - rewrite get_set_eq. by rewrite get_set_eq.
Qed.

Lemma backfill_visit_other d m p k :
  JS.truthy (Raw.fc p) = false ∨ Raw.fc p ≠ k →
  history_of k (Backfill.visit d m p) = history_of k m.
Proof.
  intros Hk. unfold Backfill.visit, history_of, JSMap.has.
  destruct (JS.truthy (Raw.fc p)) eqn:Ht; simpl; [|done].
  destruct Hk as [|Hne]; [done|].
  destruct (JSMap.get (Raw.fc p) m) as [r|] eqn:Hget; simpl.
  - rewrite Hget. by rewrite get_set_ne.
  - rewrite get_set_eq. by rewrite !get_set_ne.
Qed.

Lemma live_visit_same d m p :
  JS.truthy (Raw.fc p) = true →
  history_of (Raw.fc p) (GenerateStats.visit d m p) =
  if decide (d ∈ dates (history_of (Raw.fc p) m))
  then history_of (Raw.fc p) m
  else history_of (Raw.fc p) m ++ [nextEntry d p (history_of (Raw.fc p) m)].
Proof.
  intros Ht. unfold GenerateStats.visit, history_of, JSMap.has. rewrite Ht. simpl.
  destruct (JSMap.get (Raw.fc p) m) as [r|] eqn:Hget; simpl.
  - rewrite Hget. rewrite existsb_date. simpl.
    destruct (decide (d ∈ dates (vr_history r))) as [Hin|Hnin].
    + rewrite bool_decide_eq_true_2 by done. simpl. by rewrite get_set_eq.
    + rewrite bool_decide_eq_false_2 by done. simpl. by rewrite get_set_eq.
  - rewrite get_set_eq. simpl. by rewrite get_set_eq.
Qed.

Lemma live_visit_other d m p k :
  JS.truthy (Raw.fc p) = false ∨ Raw.fc p ≠ k →
  history_of k (GenerateStats.visit d m p) = history_of k m.
Proof.
  intros Hk. unfold GenerateStats.visit, history_of, JSMap.has.
  destruct (JS.truthy (Raw.fc p)) eqn:Ht; simpl; [|done].
  destruct Hk as [|Hne]; [done|].
  destruct (JSMap.get (Raw.fc p) m) as [r|] eqn:Hget; simpl.
  - rewrite Hget.
    destruct (existsb _ _); simpl; by rewrite get_set_ne.
  - rewrite get_set_eq. simpl. by rewrite !get_set_ne.
Qed.

(** Either way a step leaves a history alone or appends [nextEntry] to it. *)
Lemma backfill_visit_cases d m p k :
  history_of k (Backfill.visit d m p) = history_of k m ∨
  history_of k (Backfill.visit d m p) =
    history_of k m ++ [nextEntry d p (history_of k m)].
Proof.
  destruct (JS.truthy (Raw.fc p)) eqn:Ht;
    [destruct (decide (Raw.fc p = k)) as [<-|Hne]|].
  - right. by apply backfill_visit_same.
  - left. apply backfill_visit_other. by right.
  - left. apply backfill_visit_other. by left.
Qed.

Lemma live_visit_cases d m p k :
  history_of k (GenerateStats.visit d m p) = history_of k m ∨
  ((d ∉ dates (history_of k m)) ∧
   history_of k (GenerateStats.visit d m p) =
     history_of k m ++ [nextEntry d p (history_of k m)]).
Proof.
  destruct (JS.truthy (Raw.fc p)) eqn:Ht;
    [destruct (decide (Raw.fc p = k)) as [<-|Hne]|].
  - rewrite live_visit_same by done. case_decide; [by left | by right].
  - left. apply live_visit_other. by right.
  - left. apply live_visit_other. by left.
Qed.

(** ** Invariants of the folds *)

Lemma processRow_fold toISOString m row :
  GenerateStats.processRow toISOString m row =
  foldl (GenerateStats.visit (GenerateStats.rowDate toISOString row)) m
        (rowPlayers row).
Proof.
  unfold GenerateStats.processRow, rowPlayers.
  by destruct (GenerateStats.data row).
Qed.

Section fold_invariants.
Variable P : list HistoryEntry → Prop.

(** A property kept by every append the backfill fold can make is kept by
    the whole fold. *)
Section backfill.
Hypothesis P_snoc : ∀ h d p, P h → P (h ++ [nextEntry d p h]).

Lemma backfill_players_invariant d players m :
  (∀ k, P (history_of k m)) →
  ∀ k, P (history_of k (foldl (Backfill.visit d) m players)).
Proof.
  apply (foldl_invariant _ (λ m, ∀ k, P (history_of k m))).
  intros a p _ Ha k.
  destruct (backfill_visit_cases d a p k) as [-> | ->]; [done|].
  by apply P_snoc.
Qed.

Lemma backfill_build_invariant Date_parse snapshotMap :
  P [] → ∀ k, P (history_of k (Backfill.build Date_parse snapshotMap)).
Proof.
  intros Hnil. unfold Backfill.build.
  apply (foldl_invariant _ (λ m, ∀ k, P (history_of k m))); [|done].
  intros a d _ Ha. destruct (JSMap.get d snapshotMap); [|done].
  by apply backfill_players_invariant.
Qed.
End backfill.

(** The live fold appends only dates that are not in the history yet. *)
Section live.
Hypothesis P_snoc :
  ∀ h d p, d ∉ dates h → P h → P (h ++ [nextEntry d p h]).

Lemma live_players_invariant d players m :
  (∀ k, P (history_of k m)) →
  ∀ k, P (history_of k (foldl (GenerateStats.visit d) m players)).
Proof.
  apply (foldl_invariant _ (λ m, ∀ k, P (history_of k m))).
  intros a p _ Ha k.
  destruct (live_visit_cases d a p k) as [-> | [Hd ->]]; [done|].
  by apply P_snoc.
Qed.

Lemma live_invariant toISOString rows m :
  (∀ k, P (history_of k m)) →
  ∀ k, P (history_of k (GenerateStats.processLive toISOString m rows)).
Proof.
  unfold GenerateStats.processLive.
  apply (foldl_invariant _ (λ m, ∀ k, P (history_of k m))).
  intros a row _ Ha. rewrite processRow_fold.
  by apply live_players_invariant.
Qed.
End live.
End fold_invariants.

Lemma lookup_snoc_pair {A} (h : list A) (x : A) i e1 e2 :
  (h ++ [x]) !! i = Some e1 → (h ++ [x]) !! S i = Some e2 →
  (h !! i = Some e1 ∧ h !! S i = Some e2) ∨ (last h = Some e1 ∧ e2 = x).
Proof.
  intros H1 H2.
  destruct (decide (S i < length h)%nat) as [Hlt|Hge].
  - left. rewrite lookup_app_l in H1 by lia.
    by rewrite lookup_app_l in H2 by lia.
  - right. apply lookup_lt_Some in H2 as Hlen. rewrite length_app in Hlen.
    simpl in Hlen. assert (S i = length h) as Hi by lia.
    rewrite lookup_app_l in H1 by lia.
    rewrite lookup_app_r in H2 by lia.
    replace (S i - length h)%nat with 0%nat in H2 by lia.
    simpl in H2. split; [|congruence].
    rewrite last_lookup. rewrite <- Hi. simpl. done.
Qed.

Lemma deltas_ok_snoc h d p :
  deltas_ok h → deltas_ok (h ++ [nextEntry d p h]).
Proof.
  intros Hh i e1 e2 H1 H2.
  destruct (lookup_snoc_pair _ _ _ _ _ H1 H2) as [[? ?] | [Hlast ->]].
  - by eapply Hh.
  - unfold nextEntry. simpl. by rewrite Hlast.
Qed.

Lemma first_delta_zero_snoc h d p :
  first_delta_zero h → first_delta_zero (h ++ [nextEntry d p h]).
Proof.
  intros Hh e. destruct h as [|e0 h]; simpl.
  - by intros [= <-].
  - intros [= <-]. by apply Hh.
Qed.

Lemma NoDup_dates_snoc h d p :
  d ∉ dates h → NoDup (dates h) → NoDup (dates (h ++ [nextEntry d p h])).
Proof.
  intros Hd Hh. unfold dates. rewrite fmap_app. simpl.
  apply NoDup_app. split_and!; [done | | apply NoDup_singleton].
  by intros x Hx ->%list_elem_of_singleton.
Qed.

(** ** Reprocessing and duplicates *)

Lemma live_players_present d players m k :
  (∀ p, p ∈ players → JS.truthy (Raw.fc p) = true → Raw.fc p = k →
        d ∈ dates (history_of k m)) →
  history_of k (foldl (GenerateStats.visit d) m players) = history_of k m.
Proof.
  intros Hpres.
  apply (foldl_invariant _ (λ a, history_of k a = history_of k m)); [|done].
  intros a p Hp Ha.
  destruct (JS.truthy (Raw.fc p)) eqn:Ht;
    [destruct (decide (Raw.fc p = k)) as [Hk|Hne]|].
  - subst k. rewrite live_visit_same by done.
    rewrite decide_True; [done|]. rewrite Ha. by apply (Hpres p).
  - rewrite live_visit_other; [done | by right].
  - rewrite live_visit_other; [done | by left].
Qed.

Lemma live_present toISOString rows m k :
  (∀ row p, row ∈ rows → p ∈ rowPlayers row →
            JS.truthy (Raw.fc p) = true → Raw.fc p = k →
            GenerateStats.rowDate toISOString row ∈ dates (history_of k m)) →
  history_of k (GenerateStats.processLive toISOString m rows) = history_of k m.
Proof.
  intros Hpres. unfold GenerateStats.processLive.
  apply (foldl_invariant _ (λ a, history_of k a = history_of k m)); [|done].
  intros a row Hrow%elem_of_sort Ha. rewrite processRow_fold.
  rewrite live_players_present; [done|].
  intros p Hp Ht Hk. rewrite Ha. by apply (Hpres row p).
Qed.

Lemma occurrences_cons k p players :
  occurrences k (p :: players) =
  if decide (JS.truthy (Raw.fc p) = true ∧ Raw.fc p = k)
  then S (occurrences k players) else occurrences k players.
Proof. unfold occurrences. rewrite filter_cons. by case_decide. Qed.

Lemma backfill_players_dates d players m k :
  dates (history_of k (foldl (Backfill.visit d) m players)) =
  dates (history_of k m) ++ replicate (occurrences k players) d.
Proof.
  revert m. induction players as [|p players IH]; intros m; simpl.
  - by rewrite app_nil_r.
  - rewrite IH, occurrences_cons. case_decide as Hk.
    + destruct Hk as [Ht <-]. rewrite backfill_visit_same by done.
      unfold dates. rewrite fmap_app. simpl. by rewrite <- app_assoc.
    + rewrite backfill_visit_other; [done|].
      destruct (JS.truthy (Raw.fc p)); [right | by left].
      intros ?. by apply Hk.
Qed.

(** The dates of a history built by the backfill: every date of the sorted
    list, once per record of its snapshot that carries the key. *)
Lemma backfill_fold_dates snapshotMap ds m k :
  dates (history_of k
    (foldl (λ playerMap d,
              match JSMap.get d snapshotMap with
              | Some players => foldl (Backfill.visit d) playerMap players
              | None => playerMap
              end) m ds)) =
  dates (history_of k m) ++
  concat ((λ d, replicate
                  (occurrences k (default [] (JSMap.get d snapshotMap))) d)
          <$> ds).
Proof.
  revert m. induction ds as [|d ds IH]; intros m; simpl.
  - by rewrite app_nil_r.
  - rewrite IH. destruct (JSMap.get d snapshotMap) as [players|]; simpl.
    + rewrite backfill_players_dates. by rewrite <- app_assoc.
    + unfold occurrences. done.
Qed.

Lemma elem_of_concat_replicate (n : string → nat) (ds : list string) x :
  x ∈ concat ((λ d, replicate (n d) d) <$> ds) → x ∈ ds.
Proof.
  induction ds as [|d ds IH]; simpl; [done|].
  rewrite elem_of_app. intros [Hx%elem_of_replicate_inv | Hx].
  - subst x. apply list_elem_of_here.
  - by apply list_elem_of_further, IH.
Qed.

Lemma NoDup_concat_replicate (n : string → nat) (ds : list string) :
  NoDup ds → (∀ d, d ∈ ds → (n d ≤ 1)%nat) →
  NoDup (concat ((λ d, replicate (n d) d) <$> ds)).
Proof.
  induction 1 as [|d ds Hd Hnd IH]; intros Hn; simpl; [apply NoDup_nil_2|].
  apply NoDup_app. split_and!.
  - assert (n d ≤ 1)%nat as Hle by (apply Hn, list_elem_of_here).
    destruct (n d) as [|[|?]]; simpl; [apply NoDup_nil_2 | apply NoDup_singleton | lia].
  - intros x Hx%elem_of_replicate_inv Hx'. subst x.
    by apply Hd, (elem_of_concat_replicate n).
  - apply IH. intros d' Hd'. by apply Hn, list_elem_of_further.
Qed.

Lemma collect_keys_NoDup fetched :
  NoDup (JSMap.keys (Backfill.collect fetched)).
Proof.
  unfold Backfill.collect.
  apply (foldl_invariant _ (λ sm, NoDup (JSMap.keys sm))).
  - intros a [d players] _ Ha. by apply keys_set_NoDup.
  - apply NoDup_nil_2.
Qed.

Lemma backfill_build_NoDup Date_parse snapshotMap k :
  NoDup (JSMap.keys snapshotMap) →
  (∀ d players, JSMap.get d snapshotMap = Some players →
                (occurrences k players ≤ 1)%nat) →
  NoDup (dates (history_of k (Backfill.build Date_parse snapshotMap))).
Proof.
  intros Hkeys Hocc. unfold Backfill.build. rewrite backfill_fold_dates. simpl.
  apply NoDup_concat_replicate.
  - unfold Backfill.sortedDates. by rewrite sort_perm.
  - intros d _. destruct (JSMap.get d snapshotMap) as [players|] eqn:Hget; simpl.
    + by eapply Hocc.
    + unfold occurrences. simpl. lia.
Qed.

(** ** Claims about the reconstruction folds *)

Lemma history_of_get k m r :
  JSMap.get k m = Some r → history_of k m = vr_history r.
Proof. unfold history_of. by intros ->. Qed.

Lemma live_dedup_guard : dedup_guard GenerateStats.visit.
Proof.
  intros d m p Hd. destruct (JS.truthy (Raw.fc p)) eqn:Ht.
  - rewrite live_visit_same by done. by rewrite decide_True.
  - apply live_visit_other. by left.
Qed.

(** C1, counterexample: the backfill fold has no dedup guard.  A revision
    that lists the same player twice yields two entries with the revision's
    date, the second one appended although the date was already there. *)
Lemma backfill_appends_duplicate_date :
  dates (history_of (JS.JStr "1234-5678-9012")
           (Backfill.build Clock.Date_parse
              (Backfill.collect Sample.fetched_twice)))
  = [Sample.day31; Sample.day31]
  ∧ ¬ dedup_guard Backfill.visit.
Proof.
  split; [by vm_compute|].
  intros Hguard.
  assert (Sample.day31 ∈ dates (history_of (Raw.fc Sample.ann)
            (Backfill.visit Sample.day31 [] Sample.ann))) as Hin
    by (vm_compute; apply list_elem_of_here).
  apply Hguard in Hin. vm_compute in Hin. discriminate Hin.
Qed.

(** C1, as amended: the dedup guard belongs to the live-feed fold.  There a
    record whose row date is already in the player's history appends nothing,
    histories without duplicate dates stay so, and a player all of whose row
    dates are already present keeps its history unchanged.  The backfill fold
    appends one entry for every record that carries a key, whatever the
    history holds; its histories are free of duplicate dates when no revision
    lists the player twice. *)
Theorem dedup_guard_live_fold
    (Date_parse : string → JS.num) (toISOString : Z → string) :
  dedup_guard GenerateStats.visit
  ∧ (∀ base rows,
       (∀ k, NoDup (dates (history_of k base))) →
       ∀ k, NoDup (dates (history_of k
                     (GenerateStats.processLive toISOString base rows))))
  ∧ (∀ base rows k,
       (∀ row p, row ∈ rows → p ∈ rowPlayers row →
          JS.truthy (Raw.fc p) = true → Raw.fc p = k →
          GenerateStats.rowDate toISOString row ∈ dates (history_of k base)) →
       history_of k (GenerateStats.processLive toISOString base rows)
       = history_of k base)
  ∧ (∀ d m p,
       JS.truthy (Raw.fc p) = true →
       history_of (Raw.fc p) (Backfill.visit d m p)
       = history_of (Raw.fc p) m ++ [nextEntry d p (history_of (Raw.fc p) m)])
  ∧ (∀ fetched k,
       (∀ d players,
          (d, players) ∈ Backfill.collect fetched →
          (occurrences k players ≤ 1)%nat) →
       NoDup (dates (history_of k
                (Backfill.build Date_parse (Backfill.collect fetched))))).
Proof.
  split_and!.
  - apply live_dedup_guard.
  - intros base rows Hbase.
    apply (live_invariant (λ h, NoDup (dates h))); [|done].
    intros h d p. apply NoDup_dates_snoc.
  - intros base rows k. apply live_present.
  - intros d m p. apply backfill_visit_same.
  - intros fetched k Hocc.
    apply backfill_build_NoDup; [apply collect_keys_NoDup|].
    intros d players Hget. by apply (Hocc d), get_Some_elem.
Qed.

Lemma dedup_guard_live_fold_witness :
  history_of (JS.JStr "1234-5678-9012")
    (GenerateStats.processLive Clock.toISOString
       (GenerateStats.processLive Clock.toISOString [] Sample.rows) Sample.rows)
  = history_of (JS.JStr "1234-5678-9012")
      (GenerateStats.processLive Clock.toISOString [] Sample.rows)
  ∧ NoDup (dates (history_of (JS.JStr "1234-5678-9012")
             (Backfill.build Clock.Date_parse
                (Backfill.collect Sample.fetched)))).
Proof.
  destruct (dedup_guard_live_fold Clock.Date_parse Clock.toISOString)
    as (_ & _ & Hsame & _ & Hnodup).
  split.
  - apply Hsame. intros row p Hrow Hp Ht Hk.
    unfold Sample.rows in Hrow. elem_cases Hrow.
    + vm_compute. apply list_elem_of_further, list_elem_of_here.
    + vm_compute. apply list_elem_of_here.
  - apply Hnodup. intros d players Hin.
    change (Backfill.collect Sample.fetched)
      with [(Sample.day31, [Sample.ann'; Sample.bob]);
            (Sample.day30, [Sample.ann])] in Hin.
    elem_cases Hin; injection Hin as -> ->; vm_compute; lia.
Defined.

(** C2, counterexample: the first entry of a reconstructed history has
    [vrChange = 0], not [vrChange = totalVR]. *)
Lemma first_entry_delta_is_not_total :
  head (history_of (JS.JStr "1234-5678-9012")
          (Backfill.build Clock.Date_parse (Backfill.collect Sample.fetched)))
  = Some {| date := Sample.day30; vrChange := JS.Num 0; totalVR := JS.Num 5000 |}
  ∧ ¬ first_delta_is_total
        (history_of (JS.JStr "1234-5678-9012")
           (Backfill.build Clock.Date_parse (Backfill.collect Sample.fetched)))
  ∧ ¬ first_delta_is_total
        (history_of (JS.JStr "1234-5678-9012")
           (GenerateStats.processLive Clock.toISOString [] Sample.rows)).
Proof.
  split_and!; [by vm_compute | |].
  - intros H. vm_compute in H. specialize (H _ eq_refl). discriminate H.
  - intros H. vm_compute in H. specialize (H _ eq_refl). discriminate H.
Qed.

(** C2, as amended: in every record reconstructed from an empty base, by the
    backfill fold or by the live fold, the first history entry carries the
    delta of its total against itself, [currentVR - currentVR]: 0 whenever
    the rating read is a number. *)
Theorem first_entry_zero_delta
    (Date_parse : string → JS.num) (toISOString : Z → string)
    (snapshotMap : list (string * list Raw.t)) (rows : list GenerateStats.Row)
    (k : JS.jsval) (rec : PlayerRecord) (e : HistoryEntry) :
  JSMap.get k (Backfill.build Date_parse snapshotMap) = Some rec
  ∨ JSMap.get k (GenerateStats.processLive toISOString [] rows) = Some rec →
  head (vr_history rec) = Some e →
  vrChange e = JS.sub (totalVR e) (totalVR e)
  ∧ (∀ z, totalVR e = JS.Num z → vrChange e = JS.Num 0).
Proof.
  intros Hget Hhead.
  assert (first_delta_zero (vr_history rec)) as Hinv.
  { destruct Hget as [Hget|Hget]; rewrite <- (history_of_get _ _ _ Hget).
    - apply (backfill_build_invariant first_delta_zero);
        [apply first_delta_zero_snoc | done].
    - apply (live_invariant first_delta_zero);
        [intros h d p _; apply first_delta_zero_snoc | done]. }
  specialize (Hinv e Hhead). split; [done|].
  intros z Hz. rewrite Hinv, Hz. simpl. f_equal. lia.
Qed.

Lemma first_entry_zero_delta_witness :
  vrChange {| date := Sample.day30; vrChange := JS.Num 0; totalVR := JS.Num 5000 |}
  = JS.Num 0.
Proof.
  refine (proj2 (first_entry_zero_delta Clock.Date_parse Clock.toISOString
                   (Backfill.collect Sample.fetched) Sample.rows
                   (JS.JStr "1234-5678-9012")
                   {| name := JS.JStr "Ann"; fc := JS.JStr "1234-5678-9012";
                      vr_history :=
                        [ {| date := Sample.day30; vrChange := JS.Num 0;
                             totalVR := JS.Num 5000 |};
                          {| date := Sample.day31; vrChange := JS.Num 40;
                             totalVR := JS.Num 5040 |} ];
                      vrStats := None; discord := JS.JUndefined |}
                   _ _ _) 5000 _).
  - left. vm_compute. reflexivity.
  - reflexivity.
  - reflexivity.
Defined.

(** C6: in every history reconstructed from an empty base, by the backfill
    fold or by the live fold, each entry after the first carries the
    difference between its total and the total of the entry before it. *)
Theorem delta_of_consecutive_totals
    (Date_parse : string → JS.num) (toISOString : Z → string)
    (snapshotMap : list (string * list Raw.t)) (rows : list GenerateStats.Row)
    (k : JS.jsval) (rec : PlayerRecord) (i : nat) (e1 e2 : HistoryEntry) :
  JSMap.get k (Backfill.build Date_parse snapshotMap) = Some rec
  ∨ JSMap.get k (GenerateStats.processLive toISOString [] rows) = Some rec →
  vr_history rec !! i = Some e1 →
  vr_history rec !! S i = Some e2 →
  vrChange e2 = JS.sub (totalVR e2) (totalVR e1).
Proof.
  intros Hget. revert i e1 e2. change (deltas_ok (vr_history rec)).
  destruct Hget as [Hget|Hget]; rewrite <- (history_of_get _ _ _ Hget).
  - apply (backfill_build_invariant deltas_ok); [apply deltas_ok_snoc | done].
  - apply (live_invariant deltas_ok);
      [intros h d p _; apply deltas_ok_snoc | done].
Qed.

Lemma delta_of_consecutive_totals_witness :
  JS.Num 40 = JS.sub (JS.Num 5040) (JS.Num 5000).
Proof.
  refine (delta_of_consecutive_totals Clock.Date_parse Clock.toISOString
            (Backfill.collect Sample.fetched) Sample.rows
            (JS.JStr "1234-5678-9012")
            {| name := JS.JStr "Ann"; fc := JS.JStr "1234-5678-9012";
               vr_history :=
                 [ {| date := Sample.day30; vrChange := JS.Num 0;
                      totalVR := JS.Num 5000 |};
                   {| date := Sample.day31; vrChange := JS.Num 40;
                      totalVR := JS.Num 5040 |} ];
               vrStats := None; discord := JS.JStr "unknown" |}
            0%nat
            {| date := Sample.day30; vrChange := JS.Num 0; totalVR := JS.Num 5000 |}
            {| date := Sample.day31; vrChange := JS.Num 40; totalVR := JS.Num 5040 |}
            _ _ _).
  - right. vm_compute. reflexivity.
  - reflexivity.
  - reflexivity.
Defined.

(** ** [parseInt] on the decimal rendering of an integer *)

Lemma digits_run_uint (d : Decimal.uint) (a : Decimal.uint) :
  JS.digits_run 10 (NilEmpty.string_of_uint d)
    (Some (Z.of_N (DecimalPos.Unsigned.of_lu a)))
  = Some (Z.of_N (DecimalPos.Unsigned.of_lu (Decimal.revapp d a))).
Proof.
  revert a. induction d; intros a; simpl; [done|..];
    (etransitivity; [|apply IHd]); simpl DecimalPos.Unsigned.of_lu;
    do 2 f_equal;
    match goal with
    | |- context [Z.of_nat (nat_of_ascii ?c)] =>
        let v := eval vm_compute in (Z.of_nat (nat_of_ascii c)) in
        change (Z.of_nat (nat_of_ascii c)) with v
    end; lia.
Qed.

Lemma digits_run_uint_start (d : Decimal.uint) :
  d ≠ Decimal.Nil →
  JS.digits_run 10 (NilEmpty.string_of_uint d) None
  = Some (Z.of_N (Pos.of_uint d)).
Proof.
  intros Hd. rewrite DecimalPos.Unsigned.of_uint_alt. unfold Decimal.rev.
  destruct d; [done|..]; simpl;
    (etransitivity; [|apply (digits_run_uint d)]); done.
Qed.


Lemma parseInt_uint_string (d : Decimal.uint) :
  d ≠ Decimal.Nil →
  JS.parseInt_string (NilEmpty.string_of_uint d)
  = JS.Num (Z.of_N (Pos.of_uint d))
  ∧ JS.parseInt_string (String "-" (NilEmpty.string_of_uint d))
    = JS.Num (- Z.of_N (Pos.of_uint d)).
Proof.
  intros Hd. pose proof (digits_run_uint_start d Hd) as Hrun.
  destruct d as [|d|d|d|d|d|d|d|d|d|d]; [done|..];
    cbn [NilEmpty.string_of_uint] in *;
    try (split; parseInt_expose; rewrite Hrun; f_equal; lia).
  destruct d; cbn [NilEmpty.string_of_uint] in *;
    split; parseInt_expose; rewrite Hrun; f_equal; lia.
Qed.

Lemma parseInt_integer (z : Z) : JS.parseInt (JS.JNum (JS.Num z)) = JS.Num z.
Proof.
  unfold JS.parseInt, JS.ToString, Z.to_int.
  destruct z as [|p|p]; [done|..];
    unfold NilZero.string_of_int, NilZero.string_of_uint;
    pose proof (DecimalPos.Unsigned.to_uint_nonnil p) as Hn;
    destruct (parseInt_uint_string (Pos.to_uint p) Hn) as [Hpos Hneg];
    rewrite DecimalPos.Unsigned.of_to in Hpos, Hneg;
    destruct (Pos.to_uint p); done.
Qed.

(** ** The rating of a raw record *)

Lemma parseInt_no_leading_integer s c r :
  JS.trim_start s = String c r →
  c ≠ "+"%char → c ≠ "-"%char →
  (∀ d, JS.digit_val c = Some d → 10 ≤ d) →
  JS.parseInt (JS.JStr s) = JS.NaN.
Proof.
  intros Htrim Hplus Hminus Hdig.
  unfold JS.parseInt, JS.parseInt_string. simpl JS.ToString. rewrite Htrim.
  destruct c as [b0 b1 b2 b3 b4 b5 b6 b7].
  destruct b0, b1, b2, b3, b4, b5, b6, b7; try done;
    exfalso;
    match type of Hdig with
    | ∀ d, JS.digit_val ?c = _ → _ =>
        let v := eval vm_compute in (JS.digit_val c) in
        change (JS.digit_val c) with v in Hdig
    end;
    specialize (Hdig _ eq_refl); lia.
Qed.

(** C4, counterexample: a rating that is not numeric is read as NaN, not as
    0; and a field [ev] that is present with the value 0 gives way to [vr]. *)
Lemma currentVR_differs_from_spec :
  currentVR (Raw.mk (JS.JStr "1234-5678-9012") (JS.JStr "Ann")
                    (JS.JStr "abc") JS.JUndefined) = JS.NaN
  ∧ spec_currentVR (Raw.mk (JS.JStr "1234-5678-9012") (JS.JStr "Ann")
                           (JS.JStr "abc") JS.JUndefined) = JS.Num 0
  ∧ currentVR (Raw.mk (JS.JStr "1234-5678-9012") (JS.JStr "Ann")
                      (JS.JNum (JS.Num 0)) (JS.JNum (JS.Num 500))) = JS.Num 500
  ∧ spec_currentVR (Raw.mk (JS.JStr "1234-5678-9012") (JS.JStr "Ann")
                           (JS.JNum (JS.Num 0)) (JS.JNum (JS.Num 500)))
    = JS.Num 0
  ∧ ¬ (∀ p, currentVR p = spec_currentVR p).
Proof.
  split_and!; [reflexivity..|].
  intros H.
  specialize (H (Raw.mk (JS.JStr "1234-5678-9012") (JS.JStr "Ann")
                        (JS.JStr "abc") JS.JUndefined)).
  discriminate H.
Qed.

(** C4, as amended: the rating is [parseInt] of the first truthy value among
    [ev] and [vr] (a falsy [ev], such as 0 or the empty string, gives way to
    [vr]) and 0 when neither is truthy; the same [parseInt] reads whichever
    field supplied the value.  It returns an integer number unchanged (an
    integer a number holds exactly, of magnitude below 2^53), and NaN, not 0,
    for a string in which the leading ASCII white space is followed by an
    ASCII character that is neither a sign nor a decimal digit. *)
Theorem currentVR_first_truthy_field (p : Raw.t) :
  (JS.truthy (Raw.ev p) = true → currentVR p = JS.parseInt (Raw.ev p))
  ∧ (JS.truthy (Raw.ev p) = false → JS.truthy (Raw.vr p) = true →
     currentVR p = JS.parseInt (Raw.vr p))
  ∧ (JS.truthy (Raw.ev p) = false → JS.truthy (Raw.vr p) = false →
     currentVR p = JS.Num 0)
  ∧ (∀ z, JS.safe_integer z = true →
          JS.parseInt (JS.JNum (JS.Num z)) = JS.Num z)
  ∧ (∀ s c r,
       JS.trim_start s = String c r →
       JS.is_ascii c = true →
       c ≠ "+"%char → c ≠ "-"%char →
       (∀ d, JS.digit_val c = Some d → 10 ≤ d) →
       JS.parseInt (JS.JStr s) = JS.NaN).
Proof.
  unfold currentVR, JS.logical_or. split; [|split; [|split; [|split]]].
  - intros Hev. by rewrite !Hev.
  - intros Hev Hvr. by rewrite Hev, !Hvr.
  - intros Hev Hvr. by rewrite Hev, !Hvr.
  - intros z _. apply parseInt_integer.
  - intros s c r Htrim _. by apply (parseInt_no_leading_integer s c r).
Qed.

Lemma currentVR_first_truthy_field_witness :
  currentVR Sample.bob = JS.Num 7200
  ∧ JS.parseInt (JS.JNum (JS.Num 5000)) = JS.Num 5000
  ∧ JS.parseInt (JS.JStr " n/a") = JS.NaN.
Proof.
  destruct (currentVR_first_truthy_field Sample.bob)
    as (_ & Hvr & _ & Hint & Hnan).
  split; [|split].
  - rewrite Hvr; reflexivity.
  - apply (Hint 5000). reflexivity.
  - apply (Hnan " n/a" "n"%char "/a");
      [reflexivity | reflexivity | done | done |].
    intros d Hd. vm_compute in Hd. injection Hd as <-. lia.
Defined.

(** ** The discord profile sync *)

Lemma finalize_nonempty Date_parse now discordCache k data first rest :
  GenerateStats.prune Date_parse now
    (GenerateStats.sortHistory Date_parse (vr_history data)) = first :: rest →
  (GenerateStats.finalize Date_parse now discordCache k data).1 =
  let h := first :: rest in
  let currentTotal := totalVR (List.last h first) in
  let getVRAt := GenerateStats.getVRAt Date_parse now first h in
  with_discord
    (GenerateStats.discordSync (discord data)
       (default JS.JUndefined (discordCache !! JS.ToString k)))
    (with_stats
       {| last24Hours := JS.sub currentTotal (getVRAt GenerateStats.oneDay);
          lastWeek := JS.sub currentTotal (getVRAt GenerateStats.sevenDays);
          lastMonth := JS.sub currentTotal (getVRAt GenerateStats.thirtyDays) |}
       (with_history h data)).
Proof.
  intros Hh. unfold GenerateStats.finalize. simpl. by rewrite Hh.
Qed.

(** C8, counterexample: the merge is not applied to every player.  A stored
    player whose only entry is older than 30 days keeps "unknown" although
    the cache holds a profile under its key, where the merge gives that
    profile; a run on a players directory with that record completes and
    leaves the file as it was. *)
Lemma cached_profile_not_adopted_after_pruning :
  pruned Clock.Date_parse Sample.now Sample.lapsed = []
  ∧ Sample.linked !! "1234-5678-9012" = Some (JS.JStr "linked:xyz")
  ∧ discord (GenerateStats.finalize Clock.Date_parse Sample.now Sample.linked
               (JS.JStr "1234-5678-9012") Sample.lapsed).1
    = JS.JStr "unknown"
  ∧ spec_discord Sample.linked (JS.JStr "1234-5678-9012") Sample.lapsed
    = JS.JStr "linked:xyz"
  ∧ GenerateStats.run Clock.Date_parse Clock.toISOString
      {| GenerateStats.archive := None;
         GenerateStats.players :=
           {[ fileName "1234-5678-9012" := JsonFile Sample.lapsed ]} |}
      [] Sample.linked Sample.now
    = ({| GenerateStats.archive := None;
          GenerateStats.players :=
            {[ fileName "1234-5678-9012" := JsonFile Sample.lapsed ]} |},
       Completed).
Proof. split_and!; vm_compute; reflexivity. Qed.

(** C8, as amended: the discord-linkage merge.  With no (truthy) cache entry
    the stored value is kept, an unset one defaulting to "unknown"; with
    "not_linked" in the cache the value becomes "not_linked" when it was
    "unknown" (or unset) or "not_linked" and is kept otherwise; any other
    cache entry replaces it.  The loop of step 4 applies this merge, to the
    stored value and the cache entry of the player's key (a string), for the
    players whose history is not empty after pruning and whose key does not
    reach an inherited member of the cache object; a player whose pruned
    history is empty is skipped before the merge and keeps the stored value,
    whatever the cache holds. *)
Theorem discord_merge_policy (stored cacheProfile : JS.jsval) :
  let stored1 := if JS.truthy stored then stored else JS.JStr "unknown" in
  (JS.truthy cacheProfile = false →
   GenerateStats.discordSync stored cacheProfile = stored1)
  ∧ (cacheProfile = JS.JStr "not_linked" →
     stored1 = JS.JStr "unknown" ∨ stored1 = JS.JStr "not_linked" →
     GenerateStats.discordSync stored cacheProfile = JS.JStr "not_linked")
  ∧ (cacheProfile = JS.JStr "not_linked" →
     stored1 ≠ JS.JStr "unknown" → stored1 ≠ JS.JStr "not_linked" →
     GenerateStats.discordSync stored cacheProfile = stored)
  ∧ (JS.truthy cacheProfile = true →
     cacheProfile ≠ JS.JStr "not_linked" →
     GenerateStats.discordSync stored cacheProfile = cacheProfile)
  ∧ (∀ Date_parse now discordCache s data,
       GenerateStats.prune Date_parse now
         (GenerateStats.sortHistory Date_parse (vr_history data)) ≠ [] →
       GenerateStats.inherits discordCache s = false →
       discord (GenerateStats.finalize Date_parse now discordCache
                  (JS.JStr s) data).1
       = GenerateStats.discordSync (discord data)
           (default JS.JUndefined (discordCache !! s)))
  ∧ (∀ Date_parse now discordCache k data,
       GenerateStats.prune Date_parse now
         (GenerateStats.sortHistory Date_parse (vr_history data)) = [] →
       GenerateStats.finalize Date_parse now discordCache k data
       = (with_history [] data, false)
       ∧ discord (GenerateStats.finalize Date_parse now discordCache k data).1
         = discord data).
Proof.
  intros stored1. unfold GenerateStats.discordSync.
  split; [|split; [|split; [|split; [|split]]]].
  - intros Hc. rewrite Hc. subst stored1. by destruct (JS.truthy stored).
  - intros -> Hs. simpl. fold stored1.
    replace (if negb (JS.truthy stored) then JS.JStr "unknown" else stored)
      with stored1 by (subst stored1; by destruct (JS.truthy stored)).
    destruct Hs as [-> | ->]; done.
  - intros -> Hu Hn. simpl.
    replace (if negb (JS.truthy stored) then JS.JStr "unknown" else stored)
      with stored1 by (subst stored1; by destruct (JS.truthy stored)).
    rewrite (bool_decide_eq_false_2 _ Hu), (bool_decide_eq_false_2 _ Hn).
    simpl. subst stored1. by destruct (JS.truthy stored).
  - intros Hc Hne. rewrite Hc. by rewrite (bool_decide_eq_false_2 _ Hne).
  - intros Date_parse now discordCache s data Hne _.
    destruct (GenerateStats.prune Date_parse now _) as [|first rest] eqn:Hh;
      [done|].
    by rewrite (finalize_nonempty _ _ _ _ _ _ _ Hh).
  - intros Date_parse now discordCache k data He.
    unfold GenerateStats.finalize. simpl. by rewrite He.
Qed.

Lemma discord_merge_policy_witness :
  GenerateStats.discordSync (JS.JStr "unknown") (JS.JStr "not_linked")
  = JS.JStr "not_linked"
  ∧ GenerateStats.discordSync (JS.JStr "linked:abc") (JS.JStr "not_linked")
    = JS.JStr "linked:abc"
  ∧ GenerateStats.discordSync (JS.JStr "linked:abc") (JS.JStr "linked:xyz")
    = JS.JStr "linked:xyz"
  ∧ GenerateStats.discordSync JS.JUndefined JS.JUndefined = JS.JStr "unknown"
  ∧ discord (GenerateStats.finalize Clock.Date_parse Sample.now Sample.linked
               (JS.JStr "1234-5678-9012") Sample.stored).1
    = JS.JStr "linked:xyz"
  ∧ discord (GenerateStats.finalize Clock.Date_parse Sample.now Sample.linked
               (JS.JStr "1234-5678-9012") Sample.lapsed).1
    = JS.JStr "unknown".
Proof.
  split; [|split; [|split; [|split; [|split]]]].
  - destruct (discord_merge_policy (JS.JStr "unknown") (JS.JStr "not_linked"))
      as (_ & Hadopt & _).
    apply Hadopt; [reflexivity | left; reflexivity].
  - destruct (discord_merge_policy (JS.JStr "linked:abc") (JS.JStr "not_linked"))
      as (_ & _ & Hkeep & _).
    apply Hkeep; [reflexivity | discriminate | discriminate].
  - destruct (discord_merge_policy (JS.JStr "linked:abc") (JS.JStr "linked:xyz"))
      as (_ & _ & _ & Hid & _).
    apply Hid; [reflexivity | discriminate].
  - destruct (discord_merge_policy JS.JUndefined JS.JUndefined) as (Hnone & _).
    apply Hnone. reflexivity.
  - destruct (discord_merge_policy JS.JUndefined JS.JUndefined)
      as (_ & _ & _ & _ & Hloop & _).
    rewrite (Hloop Clock.Date_parse Sample.now Sample.linked
               "1234-5678-9012" Sample.stored).
    + vm_compute. reflexivity.
    + vm_compute. discriminate.
    + vm_compute. reflexivity.
  - destruct (discord_merge_policy JS.JUndefined JS.JUndefined)
      as (_ & _ & _ & _ & _ & Hskip).
    destruct (Hskip Clock.Date_parse Sample.now Sample.linked
                (JS.JStr "1234-5678-9012") Sample.lapsed) as [_ Hkept].
    + vm_compute. reflexivity.
    + rewrite Hkept. reflexivity.
Defined.

(** ** File names *)

(** C9: the file-name transform is not injective.  The keys
    "1234 5678 9012" and "1234.5678.9012" differ and share one file name, so
    the second write lands on the file of the first; both scripts then leave
    a single file, holding the record written last, for the two records of
    their player map. *)
Theorem safeFC_not_injective :
  ∃ fc1 fc2 : string,
    fc1 ≠ fc2
    ∧ safeFC fc1 = safeFC fc2
    ∧ (∀ (data1 data2 : PlayerRecord) (dir : Dir),
         ∃ dir1 dir2,
           writePlayer (JS.JStr fc1) data1 dir = Some dir1
           ∧ writePlayer (JS.JStr fc2) data2 dir1 = Some dir2
           ∧ dir2 !! fileName fc1 = Some (JsonFile data2)
           ∧ dir2 = <[fileName fc2 := JsonFile data2]> dir)
    ∧ (∃ r1 r2,
         Backfill.build Clock.Date_parse
           (Backfill.collect [(Sample.day31, [Sample.eve; Sample.eva])])
         = [(JS.JStr fc1, r1); (JS.JStr fc2, r2)]
         ∧ Backfill.run Clock.Date_parse
             [(Sample.day31, [Sample.eve; Sample.eva])]
           = ({[ "1234_5678_9012.json" := JsonFile r2 ]}, Completed))
    ∧ (∃ r1 r2,
         GenerateStats.merged Clock.toISOString Sample.emptyFS
           [ {| GenerateStats.timestamp := 1706659200;
                GenerateStats.data :=
                  GenerateStats.DataArray [Sample.eve; Sample.eva] |} ]
         = Some [(JS.JStr fc1, r1); (JS.JStr fc2, r2)]
         ∧ ∃ r2',
           GenerateStats.run Clock.Date_parse Clock.toISOString Sample.emptyFS
             [ {| GenerateStats.timestamp := 1706659200;
                  GenerateStats.data :=
                    GenerateStats.DataArray [Sample.eve; Sample.eva] |} ]
             ∅ Sample.now
           = ({| GenerateStats.archive := None;
                 GenerateStats.players :=
                   {[ "1234_5678_9012.json" := JsonFile r2' ]} |}, Completed)
           ∧ fc r2' = JS.JStr fc2).
Proof.
  exists "1234 5678 9012", "1234.5678.9012".
  split; [discriminate|]. split; [reflexivity|]. split; [|split].
  - intros data1 data2 dir. eexists _, _. split_and!; [reflexivity..| |].
    + apply lookup_insert_eq.
    + apply insert_insert_eq.
  - eexists _, _. split; vm_compute; reflexivity.
  - eexists _, _. split; [vm_compute; reflexivity|].
    eexists. split; vm_compute; reflexivity.
Qed.

(** ** The stats and pruning engine *)

Section engine.
Variable Date_parse : string → JS.num.
Variable now : Z.
Variable discordCache : gmap string JS.jsval.

Lemma finalize_history k data :
  vr_history (GenerateStats.finalize Date_parse now discordCache k data).1
  = pruned Date_parse now data.
Proof.
  unfold GenerateStats.finalize, pruned. simpl.
  by destruct (GenerateStats.prune _ _ _).
Qed.

Lemma finalize_empty k data :
  pruned Date_parse now data = [] →
  GenerateStats.finalize Date_parse now discordCache k data
  = (with_history [] data, false).
Proof.
  unfold GenerateStats.finalize, pruned. simpl. by intros ->.
Qed.

Lemma finalize_save k data :
  pruned Date_parse now data ≠ [] →
  (GenerateStats.finalize Date_parse now discordCache k data).2 = true.
Proof.
  unfold GenerateStats.finalize, pruned. simpl.
  by destruct (GenerateStats.prune _ _ _).
Qed.

Lemma elem_of_pruned e data :
  e ∈ pruned Date_parse now data ↔
  e ∈ vr_history data
  ∧ ∃ t, Date_parse (date e) = JS.Num t ∧ now - t ≤ GenerateStats.thirtyDays.
Proof.
  unfold pruned, GenerateStats.prune, GenerateStats.sortHistory.
  rewrite list_elem_of_filter, elem_of_sort.
  split.
  - intros [H1 H2]. split; [done|].
    destruct (Date_parse (date e)) as [t|]; [|done].
    exists t. split; [done|]. simpl in H1. by apply Z.leb_le.
  - intros [H2 (t & Ht & Hle)]. split; [|done].
    rewrite Ht. simpl. by apply Z.leb_le.
Qed.

(** A run that completes has handled every record. *)
Lemma finalizeAll_completed entries dir final dir' :
  GenerateStats.finalizeAll Date_parse now discordCache entries dir
  = (final, dir', Completed) →
  final = finalized Date_parse now discordCache entries
  ∧ dir' = applyWrites (writes Date_parse now discordCache entries) dir.
Proof.
  unfold finalized, writes, applyWrites.
  revert dir final dir'.
  induction entries as [|[k data] entries IH]; intros dir final dir'; simpl.
  - by intros [= <- <-].
  - destruct (GenerateStats.finalize Date_parse now discordCache k data)
      as [data' [|]] eqn:Hf; simpl.
    + destruct k as [| | | |s]; simpl; try done.
      destruct (GenerateStats.finalizeAll _ _ _ entries _)
        as [[rest' dir1] o] eqn:Hrest.
      intros [= <- <- ->]. destruct (IH _ _ _ Hrest) as [-> ->]. done.
    + destruct (GenerateStats.finalizeAll _ _ _ entries dir)
        as [[rest' dir1] o] eqn:Hrest.
      intros [= <- <- ->]. destruct (IH _ _ _ Hrest) as [-> ->].
      by destruct k.
Qed.

(** With string keys only, the run completes. *)
Lemma finalizeAll_string_keys entries dir :
  (∀ k data, (k, data) ∈ entries → ∃ s, k = JS.JStr s) →
  ∃ final dir',
    GenerateStats.finalizeAll Date_parse now discordCache entries dir
    = (final, dir', Completed).
Proof.
  revert dir. induction entries as [|[k data] entries IH]; intros dir Hkeys.
  - by eexists _, _.
  - destruct (Hkeys k data) as [s ->]; [apply list_elem_of_here|].
    assert (∀ k data, (k, data) ∈ entries → ∃ s, k = JS.JStr s) as Hrest
      by (intros ???; eapply Hkeys; by apply list_elem_of_further).
    simpl.
    destruct (GenerateStats.finalize Date_parse now discordCache (JS.JStr s) data)
      as [data' [|]]; simpl.
    + destruct (IH (<[fileName s := JsonFile data']> dir) Hrest)
        as (final & dir' & ->).
      by eexists _, _.
    + destruct (IH dir Hrest) as (final & dir' & ->). by eexists _, _.
Qed.

(** What the loop does with the records does not depend on the directory
    it writes to. *)
Lemma finalizeAll_dir_irrelevant entries dir1 dir2 :
  (GenerateStats.finalizeAll Date_parse now discordCache entries dir1).1.1
  = (GenerateStats.finalizeAll Date_parse now discordCache entries dir2).1.1
  ∧ (GenerateStats.finalizeAll Date_parse now discordCache entries dir1).2
    = (GenerateStats.finalizeAll Date_parse now discordCache entries dir2).2.
Proof.
  revert dir1 dir2.
  induction entries as [|[k data] entries IH]; intros dir1 dir2; simpl; [done|].
  destruct (GenerateStats.finalize Date_parse now discordCache k data)
    as [data' [|]]; simpl.
  - destruct k as [| | | |s]; simpl; try done.
    specialize (IH (<[fileName s := JsonFile data']> dir1)
                   (<[fileName s := JsonFile data']> dir2)).
    destruct (GenerateStats.finalizeAll _ _ _ entries (<[_ := _]> dir1))
      as [[r1 d1] o1],
      (GenerateStats.finalizeAll _ _ _ entries (<[_ := _]> dir2))
      as [[r2 d2] o2].
    simpl in *. destruct IH as [-> ->]. done.
  - specialize (IH dir1 dir2).
    destruct (GenerateStats.finalizeAll _ _ _ entries dir1) as [[r1 d1] o1],
      (GenerateStats.finalizeAll _ _ _ entries dir2) as [[r2 d2] o2].
    simpl in *. destruct IH as [-> ->]. done.
Qed.

Lemma applyWrites_other ws dir file :
  file ∉ ws.*1 → applyWrites ws dir !! file = dir !! file.
Proof.
  unfold applyWrites. revert dir.
  induction ws as [|[f r] ws IH]; intros dir Hf; simpl; [done|].
  simpl in Hf. apply not_elem_of_cons in Hf as [Hne Hf].
  rewrite IH by done. by rewrite lookup_insert_ne.
Qed.

Lemma writes_length (entries : PlayerMap) :
  (∀ k data, (k, data) ∈ entries → ∃ s, k = JS.JStr s) →
  length (writes Date_parse now discordCache entries) =
  length (filter (λ e, pruned Date_parse now e.2 ≠ []) entries).
Proof.
  unfold writes. induction entries as [|[k data] entries IH]; intros Hkeys; [done|].
  destruct (Hkeys k data) as [s ->]; [apply list_elem_of_here|].
  rewrite filter_cons. simpl.
  assert (∀ k data, (k, data) ∈ entries → ∃ s, k = JS.JStr s) as Hrest
    by (intros ???; eapply Hkeys; by apply list_elem_of_further).
  specialize (IH Hrest).
  destruct (decide (pruned Date_parse now data = [])) as [He|Hne].
  - rewrite (finalize_empty _ _ He). by rewrite decide_False by naive_solver.
  - pose proof (finalize_save (JS.JStr s) data Hne) as Hsave.
    destruct (GenerateStats.finalize Date_parse now discordCache (JS.JStr s) data)
      as [data' save].
    simpl in Hsave. subst save. rewrite decide_True by done.
    simpl. f_equal. exact IH.
Qed.
End engine.

(** ** Claims about the stats and pruning engine *)

(** C3, counterexample: a record of the merged map whose history is empty
    after pruning is not written.  A feed row stamped 1970 creates the
    player; the run completes and the players directory is still empty. *)
Lemma empty_history_record_not_written :
  GenerateStats.merged Clock.toISOString Sample.emptyFS Sample.old_rows
  = Some [ (JS.JStr "1234-5678-9012",
            {| name := JS.JStr "Ann"; fc := JS.JStr "1234-5678-9012";
               vr_history :=
                 [ {| date := "1970-01-01T00:00:00.000Z";
                      vrChange := JS.Num 0; totalVR := JS.Num 5000 |} ];
               vrStats := None; discord := JS.JStr "unknown" |}) ]
  ∧ GenerateStats.run Clock.Date_parse Clock.toISOString Sample.emptyFS
      Sample.old_rows ∅ Sample.now
    = (Sample.emptyFS, Completed)
  ∧ GenerateStats.players
      (GenerateStats.run Clock.Date_parse Clock.toISOString Sample.emptyFS
         Sample.old_rows ∅ Sample.now).1
    !! fileName "1234-5678-9012" = None.
Proof. split_and!; vm_compute; reflexivity. Qed.

(** C3, as amended: when the history is empty after pruning the loop moves on
    to the next player, skipping the statistics, the discord merge and the
    write; the record stays in the map with its empty history and no file is
    deleted or rewritten for it.  The records whose pruned history is not
    empty are the ones written, once each per run. *)
Theorem empty_history_skips_write
    (Date_parse : string → JS.num) (now : Z)
    (discordCache : gmap string JS.jsval) (entries : PlayerMap) (dir : Dir) :
  (∀ k data, (k, data) ∈ entries → ∃ s, k = JS.JStr s) →
  ∃ dir',
    GenerateStats.finalizeAll Date_parse now discordCache entries dir
    = (finalized Date_parse now discordCache entries, dir', Completed)
    ∧ dir' = applyWrites (writes Date_parse now discordCache entries) dir
    ∧ (∀ k data,
         (k, data) ∈ entries → pruned Date_parse now data = [] →
         GenerateStats.finalize Date_parse now discordCache k data
         = (with_history [] data, false))
    ∧ (∀ k data,
         (k, data) ∈ entries → pruned Date_parse now data ≠ [] →
         ∃ data',
           GenerateStats.finalize Date_parse now discordCache k data
           = (data', true)
           ∧ vr_history data' = pruned Date_parse now data)
    ∧ length (writes Date_parse now discordCache entries)
      = length (filter (λ e, pruned Date_parse now e.2 ≠ []) entries)
    ∧ (∀ file,
         file ∉ (writes Date_parse now discordCache entries).*1 →
         dir' !! file = dir !! file).
Proof.
  intros Hkeys.
  destruct (finalizeAll_string_keys Date_parse now discordCache entries dir Hkeys)
    as (final & dir' & Hrun).
  destruct (finalizeAll_completed _ _ _ _ _ _ _ Hrun) as [-> ->].
  eexists. split; [exact Hrun|]. split; [done|]. split_and!.
  - intros k data _. apply finalize_empty.
  - intros k data _ Hne.
    exists (GenerateStats.finalize Date_parse now discordCache k data).1.
    split; [|apply finalize_history].
    pose proof (finalize_save Date_parse now discordCache k data Hne).
    by destruct (GenerateStats.finalize _ _ _ k data) as [? ?]; simplify_eq/=.
  - by apply writes_length.
  - intros file. apply applyWrites_other.
Qed.

Lemma empty_history_skips_write_witness :
  ∃ dir',
    GenerateStats.finalizeAll Clock.Date_parse Sample.now ∅
      [ (JS.JStr "1234-5678-9012", Sample.stored);
        (JS.JStr "0000-1111-2222", with_history [] Sample.stored) ] ∅
    = (finalized Clock.Date_parse Sample.now ∅
         [ (JS.JStr "1234-5678-9012", Sample.stored);
           (JS.JStr "0000-1111-2222", with_history [] Sample.stored) ],
       dir', Completed)
    ∧ size dir' = 1%nat.
Proof.
  destruct (empty_history_skips_write Clock.Date_parse Sample.now ∅
              [ (JS.JStr "1234-5678-9012", Sample.stored);
                (JS.JStr "0000-1111-2222", with_history [] Sample.stored) ] ∅)
    as (dir' & Hrun & Hdir & _).
  - intros k data Hin. elem_cases Hin; injection Hin as -> ->; by eexists.
  - exists dir'. split; [exact Hrun|]. rewrite Hdir. vm_compute. reflexivity.
Defined.

(** C7: every pass of the loop of step 4 over a record keeps exactly the
    entries whose date parses to an instant no more than 30 days before
    [now]: an entry exactly 30 days old is kept, any older entry is dropped.
    The test is made against the [now] of the run, and in a run that
    completes every record of the map has gone through it. *)
Theorem prune_thirty_days
    (Date_parse : string → JS.num) (now : Z)
    (discordCache : gmap string JS.jsval) (k : JS.jsval) (data : PlayerRecord) :
  (∀ e,
     e ∈ vr_history (GenerateStats.finalize Date_parse now discordCache k data).1
     ↔ e ∈ vr_history data
       ∧ ∃ t, Date_parse (date e) = JS.Num t
              ∧ now - t ≤ GenerateStats.thirtyDays)
  ∧ (∀ e,
       e ∈ vr_history data →
       Date_parse (date e) = JS.Num (now - GenerateStats.thirtyDays) →
       e ∈ vr_history
             (GenerateStats.finalize Date_parse now discordCache k data).1)
  ∧ (∀ e t,
       e ∈ vr_history data →
       Date_parse (date e) = JS.Num t →
       t < now - GenerateStats.thirtyDays →
       e ∉ vr_history
             (GenerateStats.finalize Date_parse now discordCache k data).1)
  ∧ (∀ entries dir final dir' k' data' e,
       GenerateStats.finalizeAll Date_parse now discordCache entries dir
       = (final, dir', Completed) →
       (k', data') ∈ final → e ∈ vr_history data' →
       ∃ t, Date_parse (date e) = JS.Num t
            ∧ now - t ≤ GenerateStats.thirtyDays).
Proof.
  split_and!.
  - intros e. rewrite finalize_history. apply elem_of_pruned.
  - intros e He Ht. rewrite finalize_history. apply elem_of_pruned.
    split; [done|]. exists (now - GenerateStats.thirtyDays). split; [done|lia].
  - intros e t He Ht Hlt. rewrite finalize_history.
    intros (_ & t' & Ht' & Hle)%elem_of_pruned.
    rewrite Ht in Ht'. injection Ht' as <-. lia.
  - intros entries dir final dir' k' data' e Hrun Hin He.
    destruct (finalizeAll_completed _ _ _ _ _ _ _ Hrun) as [-> _].
    unfold finalized in Hin.
    apply list_elem_of_fmap in Hin as ([k0 data0] & [= -> ->] & _).
    rewrite finalize_history in He. by apply elem_of_pruned in He as [_ ?].
Qed.

Lemma prune_thirty_days_witness :
  vr_history
    (GenerateStats.finalize Clock.Date_parse Sample.now ∅
       (JS.JStr "1234-5678-9012") Sample.stored).1
  = [ {| date := "2024-01-01T01:00:00.000Z"; vrChange := JS.Num 900;
         totalVR := JS.Num 4900 |};
      {| date := Sample.day31; vrChange := JS.Num 100;
         totalVR := JS.Num 5000 |} ]
  ∧ {| date := "2024-01-01T01:00:00.000Z"; vrChange := JS.Num 900;
       totalVR := JS.Num 4900 |}
    ∈ vr_history
        (GenerateStats.finalize Clock.Date_parse Sample.now ∅
           (JS.JStr "1234-5678-9012") Sample.stored).1
  ∧ {| date := "2024-01-01T00:59:59.999Z"; vrChange := JS.Num 0;
       totalVR := JS.Num 4000 |}
    ∉ vr_history
        (GenerateStats.finalize Clock.Date_parse Sample.now ∅
           (JS.JStr "1234-5678-9012") Sample.stored).1.
Proof.
  destruct (prune_thirty_days Clock.Date_parse Sample.now ∅
              (JS.JStr "1234-5678-9012") Sample.stored)
    as (_ & Hkeep & Hdrop & _).
  split; [vm_compute; reflexivity|]. split.
  - apply Hkeep.
    + apply list_elem_of_further, list_elem_of_here.
    + vm_compute. reflexivity.
  - apply (Hdrop _ 1704070799999).
    + apply list_elem_of_here.
    + vm_compute. reflexivity.
    + vm_compute. reflexivity.
Defined.

(** C10: when the archive directory exists the base is loaded from it alone:
    the players directory has no part in the merged map, nor in the records
    the run computes and writes, nor in how the run ends.  The players
    directory is the base only when there is no archive. *)
Theorem base_loaded_from_archive_only
    (Date_parse : string → JS.num) (toISOString : Z → string)
    (archiveDir players1 players2 : Dir) (rows : list GenerateStats.Row)
    (discordCache : gmap string JS.jsval) (now : Z) :
  GenerateStats.loadBase
    {| GenerateStats.archive := Some archiveDir;
       GenerateStats.players := players1 |}
  = GenerateStats.loadFiles (map_to_list archiveDir) []
  ∧ GenerateStats.merged toISOString
      {| GenerateStats.archive := Some archiveDir;
         GenerateStats.players := players1 |} rows
    = GenerateStats.merged toISOString
        {| GenerateStats.archive := Some archiveDir;
           GenerateStats.players := players2 |} rows
  ∧ (∀ playerMap,
       (GenerateStats.finalizeAll Date_parse now discordCache
          playerMap players1).1.1
       = (GenerateStats.finalizeAll Date_parse now discordCache
            playerMap players2).1.1)
  ∧ (GenerateStats.run Date_parse toISOString
       {| GenerateStats.archive := Some archiveDir;
          GenerateStats.players := players1 |} rows discordCache now).2
    = (GenerateStats.run Date_parse toISOString
         {| GenerateStats.archive := Some archiveDir;
            GenerateStats.players := players2 |} rows discordCache now).2
  ∧ GenerateStats.loadBase
      {| GenerateStats.archive := None; GenerateStats.players := players1 |}
    = GenerateStats.loadFiles (map_to_list players1) [].
Proof.
  split_and!; [done | done | | | done].
  - intros playerMap. apply finalizeAll_dir_irrelevant.
  - unfold GenerateStats.run. simpl.
    change (GenerateStats.merged toISOString
              {| GenerateStats.archive := Some archiveDir;
                 GenerateStats.players := players2 |} rows)
      with (GenerateStats.merged toISOString
              {| GenerateStats.archive := Some archiveDir;
                 GenerateStats.players := players1 |} rows).
    destruct (GenerateStats.merged _ _ _) as [playerMap|]; [|done].
    pose proof (finalizeAll_dir_irrelevant Date_parse now discordCache
                  playerMap players1 players2) as [_ Ho].
    destruct (GenerateStats.finalizeAll _ _ _ playerMap players1) as [[? ?] o1],
             (GenerateStats.finalizeAll _ _ _ playerMap players2) as [[? ?] o2].
    simpl in Ho. subst o2. by destruct o1.
Qed.

(** ** Window statistics *)

Lemma find_first {A} (f : A → bool) (l : list A) :
  match find f l with
  | Some x =>
      ∃ i, l !! i = Some x ∧ f x = true
           ∧ ∀ j y, (j < i)%nat → l !! j = Some y → f y = false
  | None => ∀ y, y ∈ l → f y = false
  end.
Proof.
  induction l as [|a l IH]; simpl.
  - intros y Hy. by apply not_elem_of_nil in Hy.
  - destruct (f a) eqn:Hfa.
    + exists 0%nat. split_and!; [done | done | intros; lia].
    + destruct (find f l) as [x|].
      * destruct IH as (i & Hi & Hx & Hmin). exists (S i).
        split_and!; [done | done |].
        intros [|j] y Hj Hy; simpl in Hy; [by injection Hy as <- |].
        apply (Hmin j); [lia | done].
      * intros y [->|Hy]%elem_of_cons; [done | by apply IH].
Qed.

Lemma ge_at_or_after Date_parse t e :
  JS.ge (Date_parse (date e)) (JS.Num t) = true ↔ at_or_after Date_parse t e.
Proof.
  unfold at_or_after. destruct (Date_parse (date e)) as [z|]; simpl.
  - rewrite Z.leb_le. split; [by exists z | by intros (? & [= <-] & ?)].
  - split; [done | by intros (? & ? & _)].
Qed.

Lemma not_at_or_after Date_parse t e :
  JS.ge (Date_parse (date e)) (JS.Num t) = false ↔ ¬ at_or_after Date_parse t e.
Proof. rewrite <- ge_at_or_after. by destruct (JS.ge _ _). Qed.

(** [getVRAt] returns the total of the window's reference point. *)
Lemma getVRAt_reference Date_parse now first rest msAgo :
  ∃ r, window_reference Date_parse (now - msAgo) (first :: rest) r
       ∧ GenerateStats.getVRAt Date_parse now first (first :: rest) msAgo
         = totalVR r.
Proof.
  unfold GenerateStats.getVRAt, window_reference.
  pose proof (find_first
                (λ e, JS.ge (Date_parse (date e)) (JS.Num (now - msAgo)))
                (first :: rest)) as Hfind.
  destruct (find _ (first :: rest)) as [x|].
  - destruct Hfind as (i & Hi & Hx & Hmin). exists x. split; [|done].
    left. exists i. split_and!; [done | by apply ge_at_or_after |].
    intros j e Hj He. apply not_at_or_after. by apply (Hmin j).
  - exists first. split; [|done]. right. split; [|done].
    intros e He. apply not_at_or_after. by apply Hfind.
Qed.

Lemma last_cons_default {A} (y : A) (l : list A) (d d' : A) :
  List.last (y :: l) d = List.last (y :: l) d'.
Proof.
  revert y. induction l as [|z l IH]; intros y; [done|].
  change (List.last (z :: l) d = List.last (z :: l) d'). apply IH.
Qed.

Section sorted.
Variable Date_parse : string → JS.num.

Lemma sortHistory_sorted h :
  (∀ e, e ∈ h → ∃ t, Date_parse (date e) = JS.Num t) →
  StronglySorted (earlier Date_parse) (GenerateStats.sortHistory Date_parse h).
Proof.
  unfold GenerateStats.sortHistory.
  induction h as [|x h IH]; intros Hvalid; simpl; [constructor|].
  assert (∀ e, e ∈ h → ∃ t, Date_parse (date e) = JS.Num t) as Hh
    by (intros e He; by apply Hvalid, list_elem_of_further).
  specialize (IH Hh).
  destruct (Hvalid x) as [tx Hx]; [apply list_elem_of_here|].
  assert (∀ e, e ∈ sort (λ a b, JS.sub (Date_parse (date a))
                                       (Date_parse (date b))) h →
               ∃ t, Date_parse (date e) = JS.Num t) as Hs
    by (intros e He%elem_of_sort; by apply Hh).
  revert IH Hs.
  generalize (sort (λ a b, JS.sub (Date_parse (date a))
                                  (Date_parse (date b))) h).
  intros l Hsorted Hl. induction l as [|y l IHl]; simpl.
  - repeat constructor.
  - destruct (Hl y) as [ty Hy]; [apply list_elem_of_here|].
    apply StronglySorted_cons in Hsorted as [Hall Hsorted].
    rewrite Hx, Hy. simpl. destruct (Z.ltb_spec 0 (tx - ty)) as [Hlt|Hge].
    + apply StronglySorted_cons. split.
      * rewrite sort_insert_perm. constructor; [|done].
        unfold earlier, time_of. rewrite Hx, Hy. lia.
      * apply IHl; [done|]. intros e He. by apply Hl, list_elem_of_further.
    + apply StronglySorted_cons. split.
      * assert (earlier Date_parse x y) as Hxy
          by (unfold earlier, time_of; rewrite Hx, Hy; lia).
        constructor; [done|].
        eapply Forall_impl; [exact Hall|]. unfold earlier in *. intros; lia.
      * by apply StronglySorted_cons.
Qed.

Lemma filter_sorted (P : HistoryEntry → Prop) `{∀ e, Decision (P e)} h :
  StronglySorted (earlier Date_parse) h → StronglySorted (earlier Date_parse) (filter P h).
Proof.
  induction 1 as [|x h Hh IH Hall]; [constructor|].
  rewrite filter_cons. case_decide; [|done].
  apply StronglySorted_cons. split; [|done].
  apply Forall_forall. intros e [_ He]%list_elem_of_filter.
  by eapply Forall_forall in Hall.
Qed.

Lemma sorted_first_last first rest e :
  StronglySorted (earlier Date_parse) (first :: rest) →
  e ∈ first :: rest →
  time_of Date_parse first ≤ time_of Date_parse e
  ∧ time_of Date_parse e ≤ time_of Date_parse (List.last (first :: rest) first).
Proof.
  intros Hsorted He. split.
  - apply StronglySorted_cons in Hsorted as [Hall _].
    apply elem_of_cons in He as [->|He]; [lia|].
    by eapply Forall_forall in Hall.
  - revert first e Hsorted He.
    induction rest as [|y rest IH]; intros first e Hsorted He.
    + apply list_elem_of_singleton in He as ->. simpl. lia.
    + apply StronglySorted_cons in Hsorted as [Hall Hsorted].
      change (List.last (first :: y :: rest) first)
        with (List.last (y :: rest) first).
      rewrite (last_cons_default y rest first y).
      apply elem_of_cons in He as [->|He].
      * eapply Z.le_trans; [|apply (IH y y Hsorted), list_elem_of_here].
        eapply Forall_forall in Hall; [exact Hall | apply list_elem_of_here].
      * by apply IH.
Qed.
End sorted.

Lemma last_List_last {A} (x : A) (l : list A) :
  last (x :: l) = Some (List.last (x :: l) x).
Proof.
  revert x. induction l as [|y l IH]; intros x; [done|].
  rewrite last_cons_cons, IH. f_equal.
  change (List.last (x :: y :: l) x) with (List.last (y :: l) x).
  apply last_cons_default.
Qed.


(** C5: for a record whose pruned history is not empty, each of the three
    statistics is the total of the latest entry minus the total of the
    window's reference point: the first entry of the pruned history whose
    date is at or after [now] minus the window, or the oldest retained entry
    when there is none.  (With dates that all parse, the pruned history is in
    ascending order of time, so its first entry is the oldest and its last
    the latest.)  For totals 0, 50, 120 at 10, 5 and 0 days before [now],
    nothing is pruned and [last24Hours] is 0. *)
Theorem window_statistics
    (Date_parse : string → JS.num) (now : Z)
    (discordCache : gmap string JS.jsval) :
  (∀ k data first rest,
     pruned Date_parse now data = first :: rest →
     ∃ latest r1 r7 r30,
       last (first :: rest) = Some latest
       ∧ window_reference Date_parse (now - GenerateStats.oneDay)
           (first :: rest) r1
       ∧ window_reference Date_parse (now - GenerateStats.sevenDays)
           (first :: rest) r7
       ∧ window_reference Date_parse (now - GenerateStats.thirtyDays)
           (first :: rest) r30
       ∧ vrStats (GenerateStats.finalize Date_parse now discordCache k data).1
         = Some {| last24Hours := JS.sub (totalVR latest) (totalVR r1);
                   lastWeek := JS.sub (totalVR latest) (totalVR r7);
                   lastMonth := JS.sub (totalVR latest) (totalVR r30) |}
       ∧ ((∀ e, e ∈ vr_history data → ∃ t, Date_parse (date e) = JS.Num t) →
          ∀ e, e ∈ first :: rest →
               time_of Date_parse first ≤ time_of Date_parse e
               ∧ time_of Date_parse e ≤ time_of Date_parse latest))
  ∧ (∀ k n f vs dc d10 d5 d0 c10 c5 c0,
       Date_parse d10 = JS.Num (now - 10 * GenerateStats.oneDay) →
       Date_parse d5 = JS.Num (now - 5 * GenerateStats.oneDay) →
       Date_parse d0 = JS.Num now →
       let data :=
         {| name := n; fc := f;
            vr_history :=
              [ {| date := d10; vrChange := c10; totalVR := JS.Num 0 |};
                {| date := d5; vrChange := c5; totalVR := JS.Num 50 |};
                {| date := d0; vrChange := c0; totalVR := JS.Num 120 |} ];
            vrStats := vs; discord := dc |} in
       vr_history (GenerateStats.finalize Date_parse now discordCache k data).1
       = vr_history data
       ∧ vrStats (GenerateStats.finalize Date_parse now discordCache k data).1
         = Some {| last24Hours := JS.Num 0;
                   lastWeek := JS.Num 70;
                   lastMonth := JS.Num 120 |}).
Proof.
  split.
  - intros k data first rest Hp.
    destruct (getVRAt_reference Date_parse now first rest GenerateStats.oneDay)
      as (r1 & Hr1 & H1).
    destruct (getVRAt_reference Date_parse now first rest GenerateStats.sevenDays)
      as (r7 & Hr7 & H7).
    destruct (getVRAt_reference Date_parse now first rest GenerateStats.thirtyDays)
      as (r30 & Hr30 & H30).
    exists (List.last (first :: rest) first), r1, r7, r30.
    split; [apply last_List_last|]. do 3 (split; [done|]). split.
    + rewrite (finalize_nonempty _ _ _ _ _ _ _ Hp). simpl vrStats.
      by rewrite H1, H7, H30.
    + intros Hvalid e He. apply sorted_first_last; [|done].
      rewrite <- Hp. unfold pruned, GenerateStats.prune.
      by apply filter_sorted, sortHistory_sorted.
  - intros k n f vs dc d10 d5 d0 c10 c5 c0 H10 H5 H0 data.
    assert (pruned Date_parse now data = vr_history data) as Hp.
    { unfold pruned, GenerateStats.sortHistory, GenerateStats.prune,
        GenerateStats.thirtyDays, GenerateStats.oneDay in *.
      simpl. rewrite ?H10, ?H5, ?H0. simpl. decide_cmp. simpl.
      rewrite ?H10, ?H5, ?H0. simpl. decide_cmp. simpl.
      rewrite !filter_cons. simpl. rewrite ?H10, ?H5, ?H0. simpl.
      decide_cmp. simpl. done. }
    split; [by rewrite finalize_history|].
    rewrite (finalize_nonempty _ _ _ _ _ _ _ Hp). simpl vrStats.
    unfold GenerateStats.getVRAt, GenerateStats.thirtyDays,
      GenerateStats.sevenDays, GenerateStats.oneDay in *.
    simpl. rewrite ?H10, ?H5, ?H0. simpl. decide_cmp. simpl.
    rewrite ?H10, ?H5, ?H0. simpl. decide_cmp. simpl.
    rewrite ?H10, ?H5, ?H0. simpl. decide_cmp. simpl. done.
Qed.

Lemma window_statistics_witness :
  vrStats (GenerateStats.finalize Clock.Date_parse 1706659200000 ∅
             (JS.JStr "1234-5678-9012") Sample.spaced).1
  = Some {| last24Hours := JS.Num 0;
            lastWeek := JS.Num 70;
            lastMonth := JS.Num 120 |}
  ∧ ∃ latest r1 r7 r30,
      last (vr_history Sample.spaced) = Some latest
      ∧ window_reference Clock.Date_parse
          (1706659200000 - GenerateStats.oneDay) (vr_history Sample.spaced) r1
      ∧ window_reference Clock.Date_parse
          (1706659200000 - GenerateStats.sevenDays) (vr_history Sample.spaced) r7
      ∧ window_reference Clock.Date_parse
          (1706659200000 - GenerateStats.thirtyDays) (vr_history Sample.spaced) r30
      ∧ vrStats (GenerateStats.finalize Clock.Date_parse 1706659200000 ∅
                   (JS.JStr "1234-5678-9012") Sample.spaced).1
        = Some {| last24Hours := JS.sub (totalVR latest) (totalVR r1);
                  lastWeek := JS.sub (totalVR latest) (totalVR r7);
                  lastMonth := JS.sub (totalVR latest) (totalVR r30) |}.
Proof.
  destruct (window_statistics Clock.Date_parse 1706659200000 ∅) as [Hgen Hex].
  split.
  - apply (Hex (JS.JStr "1234-5678-9012") (JS.JStr "Ann")
               (JS.JStr "1234-5678-9012") None (JS.JStr "unknown")
               "2024-01-21T00:00:00.000Z" "2024-01-26T00:00:00.000Z"
               Sample.day31 (JS.Num 0) (JS.Num 50) (JS.Num 70));
      vm_compute; reflexivity.
  - destruct (Hgen (JS.JStr "1234-5678-9012") Sample.spaced
                {| date := "2024-01-21T00:00:00.000Z"; vrChange := JS.Num 0;
                   totalVR := JS.Num 0 |}
                [ {| date := "2024-01-26T00:00:00.000Z"; vrChange := JS.Num 50;
                     totalVR := JS.Num 50 |};
                  {| date := Sample.day31; vrChange := JS.Num 70;
                     totalVR := JS.Num 120 |} ])
      as (latest & r1 & r7 & r30 & H).
    + vm_compute. reflexivity.
    + exists latest, r1, r7, r30.
      destruct H as (Hl & H1 & H7 & H30 & Hs & _).
      exact (conj Hl (conj H1 (conj H7 (conj H30 Hs)))).
Defined.

(** ** Sanity checks of the embedding *)

Example parseInt_leading_digits : JS.parseInt (JS.JStr "  -12px") = JS.Num (-12).
Proof. reflexivity. Qed.

Example parseInt_hexadecimal : JS.parseInt (JS.JStr "0x1F") = JS.Num 31.
Proof. reflexivity. Qed.

Example parseInt_boolean : JS.parseInt (JS.JBool true) = JS.NaN.
Proof. reflexivity. Qed.

Example endsWith_json : JS.endsWith "1234-5678-9012.json" ".json" = true.
Proof. reflexivity. Qed.

Example safeFC_keeps_key : safeFC "1234-5678-9012" = "1234-5678-9012".
Proof. reflexivity. Qed.

Example clock_epoch : Clock.toISOString 0 = "1970-01-01T00:00:00.000Z".
Proof. vm_compute. reflexivity. Qed.

Example clock_leap_day :
  Clock.toISOString 1709251199999 = "2024-02-29T23:59:59.999Z"
  ∧ Clock.Date_parse "2024-02-29T23:59:59.999Z" = JS.Num 1709251199999
  ∧ Clock.Date_parse "2024-02-30T00:00:00.000Z" = JS.NaN.
Proof. split_and!; vm_compute; reflexivity. Qed.

Example sort_is_stable :
  sort (λ a b : Z * string, JS.sub (JS.Num a.1) (JS.Num b.1))
       [(2, "a"); (1, "b"); (2, "c"); (1, "d")]
  = [(1, "b"); (1, "d"); (2, "a"); (2, "c")].
Proof. reflexivity. Qed.

Example sample_rows_in_order :
  dates (history_of (JS.JStr "1234-5678-9012")
           (GenerateStats.processLive Clock.toISOString [] Sample.rows))
  = [Sample.day30; Sample.day31].
Proof. vm_compute. reflexivity. Qed.

(** * Further properties of the scripts *)

(** ** File names *)

Lemma is_safe_char_replaced c :
  is_safe_char (if is_safe_char c then c else "_"%char) = is_safe_char c.
Proof. by destruct (is_safe_char c) eqn:Hc. Qed.

Lemma length_append (a b : string) :
  String.length (a +:+ b) = (String.length a + String.length b)%nat.
Proof. induction a as [|c a IH]; simpl; [done | by rewrite IH]. Qed.

Lemma substring_whole (b : string) : substring 0 (String.length b) b = b.
Proof. induction b as [|c b IH]; simpl; [done | by rewrite IH]. Qed.

Lemma substring_append (a b : string) :
  substring (String.length a) (String.length b) (a +:+ b) = b.
Proof. induction a as [|c a IH]; simpl; [apply substring_whole | done]. Qed.

Lemma endsWith_append (a b : string) : JS.endsWith (a +:+ b) b = true.
Proof.
  unfold JS.endsWith. rewrite length_append.
  replace (String.length a + String.length b - String.length b)%nat
    with (String.length a) by lia.
  rewrite substring_append, String.eqb_refl, andb_true_r.
  apply Nat.leb_le. lia.
Qed.

(** X1: The name of a player file is made of letters, digits, hyphens and
    underscores only (so it holds no path separator and no dot), it is as
    long as the key, the transform changes nothing when applied again, and
    the file carries the extension the loader looks for. *)
Theorem fileName_is_safe (s : string) :
  (∀ c, In c (list_ascii_of_string (safeFC s)) → is_name_char c = true)
  ∧ (∀ c, In c (list_ascii_of_string (safeFC s)) →
          c ≠ "/"%char ∧ c ≠ "\"%char ∧ c ≠ "."%char)
  ∧ String.length (safeFC s) = String.length s
  ∧ safeFC (safeFC s) = safeFC s
  ∧ JS.endsWith (fileName s) ".json" = true.
Proof.
  assert (∀ c, In c (list_ascii_of_string (safeFC s)) → is_name_char c = true)
    as Hchars.
  { induction s as [|a s IH]; simpl; [done|].
    intros c [<-|Hc]; [|by apply IH].
    unfold is_name_char. by destruct (is_safe_char a) eqn:Ha; rewrite ?Ha. }
  split; [done|]. split; [|split; [|split]].
  - intros c Hc. specialize (Hchars c Hc).
    split_and!; intros ->; vm_compute in Hchars; discriminate Hchars.
  - clear Hchars. induction s as [|a s IH]; simpl; [done | by rewrite IH].
  - clear Hchars. induction s as [|a s IH]; simpl; [done|].
    rewrite IH. f_equal. rewrite is_safe_char_replaced.
    by destruct (is_safe_char a).
  - apply endsWith_append.
Qed.

(** ** What the folds keep of the map *)

Section jsmap_more.
Context {K V : Type} `{EqDecision K}.
Implicit Types (m : list (K * V)).

Lemma elem_of_set k v k' v' m :
  (k', v') ∈ JSMap.set k v m → (k', v') ∈ m ∨ (k' = k ∧ v' = v).
Proof.
  induction m as [|[k0 v0] m IH]; simpl.
  - intros [= -> ->]%list_elem_of_singleton. by right.
  - destruct (decide (k0 = k)) as [->|Hne].
    + intros [[= -> ->]|Hin]%elem_of_cons; [by right|].
      left. by apply list_elem_of_further.
    + intros [[= -> ->]|Hin]%elem_of_cons; [left; apply list_elem_of_here|].
      destruct (IH Hin) as [?|?]; [left; by apply list_elem_of_further | by right].
Qed.

Lemma keys_set_prefix k v m :
  JSMap.keys m `prefix_of` JSMap.keys (JSMap.set k v m).
Proof.
  destruct (JSMap.get k m) eqn:Hget.
  - rewrite keys_set_in; [done | congruence].
  - rewrite keys_set_new by done. by apply prefix_app_r.
Qed.

Lemma get_elem_NoDup k v m :
  NoDup (JSMap.keys m) → (k, v) ∈ m → JSMap.get k m = Some v.
Proof.
  unfold JSMap.keys. induction m as [|[k0 v0] m IH]; simpl.
  - by intros _ ?%not_elem_of_nil.
  - intros [Hk0 Hnd]%NoDup_cons [[= -> ->]|Hin]%elem_of_cons.
    + by rewrite decide_True.
    + destruct (decide (k0 = k)) as [->|Hne]; [|by apply IH].
      exfalso. apply Hk0. apply list_elem_of_fmap. by exists (k, v).
Qed.

Lemma get_perm k m m' :
  NoDup (JSMap.keys m) → m ≡ₚ m' → JSMap.get k m = JSMap.get k m'.
Proof.
  intros Hnd Hperm.
  assert (NoDup (JSMap.keys m')) as Hnd'
    by (unfold JSMap.keys in *; by rewrite <- Hperm).
  destruct (JSMap.get k m) as [v|] eqn:Hget.
  - symmetry. apply get_elem_NoDup; [done|].
    rewrite <- Hperm. by apply get_Some_elem.
  - destruct (JSMap.get k m') as [v'|] eqn:Hget'; [|done].
    apply get_Some_elem in Hget'. rewrite <- Hperm in Hget'.
    apply get_elem_NoDup in Hget'; [congruence | done].
Qed.
End jsmap_more.

Lemma with_history_same r : with_history (vr_history r) r = r.
Proof. by destruct r. Qed.

Section record_invariants.
(** A property of the records of a map, by key. *)
Variable I : JS.jsval → PlayerRecord → Prop.
Hypothesis I_new :
  ∀ p dsc,
    JS.truthy (Raw.fc p) = true →
    I (Raw.fc p)
      {| name := JS.logical_or (Raw.name p) (JS.JStr "Unknown");
         fc := Raw.fc p; vr_history := []; vrStats := None; discord := dsc |}.
Hypothesis I_update :
  ∀ k r p h,
    I k r →
    I k (with_history h (with_name (JS.logical_or (Raw.name p) (name r)) r)).

Lemma backfill_visit_records d m p :
  (∀ k r, (k, r) ∈ m → I k r) →
  ∀ k r, (k, r) ∈ Backfill.visit d m p → I k r.
Proof.
  intros Hm k r. unfold Backfill.visit.
  destruct (JS.truthy (Raw.fc p)) eqn:Ht; simpl; [|apply Hm].
  set (m1 := if negb (JSMap.has (Raw.fc p) m) then _ else m).
  assert (∀ k r, (k, r) ∈ m1 → I k r) as Hm1.
  { subst m1. destruct (negb (JSMap.has (Raw.fc p) m)); [|done].
    intros k' r' [?|[-> ->]]%elem_of_set; [by apply Hm | by apply I_new]. }
  destruct (JSMap.get (Raw.fc p) m1) as [entry|] eqn:Hget; [|apply Hm1].
  intros [?|[-> ->]]%elem_of_set; [by apply Hm1|].
  apply I_update, Hm1. by apply get_Some_elem.
Qed.

Lemma live_visit_records d m p :
  (∀ k r, (k, r) ∈ m → I k r) →
  ∀ k r, (k, r) ∈ GenerateStats.visit d m p → I k r.
Proof.
  intros Hm k r. unfold GenerateStats.visit.
  destruct (JS.truthy (Raw.fc p)) eqn:Ht; simpl; [|apply Hm].
  set (m1 := if negb (JSMap.has (Raw.fc p) m) then _ else m).
  assert (∀ k r, (k, r) ∈ m1 → I k r) as Hm1.
  { subst m1. destruct (negb (JSMap.has (Raw.fc p) m)); [|done].
    intros k' r' [?|[-> ->]]%elem_of_set; [by apply Hm | by apply I_new]. }
  destruct (JSMap.get (Raw.fc p) m1) as [entry|] eqn:Hget; [|apply Hm1].
  apply get_Some_elem in Hget.
  destruct (negb (existsb _ _)).
  - intros [?|[-> ->]]%elem_of_set; [by apply Hm1|]. by apply I_update, Hm1.
  - intros [?|[-> ->]]%elem_of_set; [by apply Hm1|].
    rewrite <- (with_history_same (with_name _ entry)).
    by apply I_update, Hm1.
Qed.

Lemma backfill_build_records Date_parse snapshotMap :
  ∀ k r, (k, r) ∈ Backfill.build Date_parse snapshotMap → I k r.
Proof.
  unfold Backfill.build.
  apply (foldl_invariant _ (λ m, ∀ k r, (k, r) ∈ m → I k r)).
  - intros a d _ Ha. destruct (JSMap.get d snapshotMap) as [players|]; [|done].
    apply (foldl_invariant _ (λ m, ∀ k r, (k, r) ∈ m → I k r)); [|done].
    intros a' p _. apply backfill_visit_records.
  - by intros k r ?%not_elem_of_nil.
Qed.

Lemma live_records toISOString rows m :
  (∀ k r, (k, r) ∈ m → I k r) →
  ∀ k r, (k, r) ∈ GenerateStats.processLive toISOString m rows → I k r.
Proof.
  unfold GenerateStats.processLive.
  apply (foldl_invariant _ (λ m, ∀ k r, (k, r) ∈ m → I k r)).
  intros a row _ Ha. rewrite processRow_fold.
  apply (foldl_invariant _ (λ m, ∀ k r, (k, r) ∈ m → I k r)); [|done].
  intros a' p _. apply live_visit_records.
Qed.
End record_invariants.

Lemma truthy_logical_or_r a b :
  JS.truthy b = true → JS.truthy (JS.logical_or a b) = true.
Proof. unfold JS.logical_or. by destruct (JS.truthy a) eqn:Ha. Qed.

Lemma backfill_visit_get d m p r :
  JS.truthy (Raw.fc p) = true →
  JSMap.get (Raw.fc p) m = Some r →
  JSMap.get (Raw.fc p) (Backfill.visit d m p)
  = Some (with_history (vr_history r ++ [nextEntry d p (vr_history r)])
            (with_name (JS.logical_or (Raw.name p) (name r)) r)).
Proof.
  intros Ht Hget. unfold Backfill.visit, JSMap.has. rewrite Ht, Hget. simpl.
  rewrite Hget. by rewrite get_set_eq.
Qed.

Lemma live_visit_get d m p r :
  JS.truthy (Raw.fc p) = true →
  JSMap.get (Raw.fc p) m = Some r →
  name <$> JSMap.get (Raw.fc p) (GenerateStats.visit d m p)
  = Some (JS.logical_or (Raw.name p) (name r)).
Proof.
  intros Ht Hget. unfold GenerateStats.visit, JSMap.has. rewrite Ht, Hget. simpl.
  rewrite Hget. destruct (negb (existsb _ _)); by rewrite get_set_eq.
Qed.

(** X2: Name retention: a record of either fold takes the name of the incoming
    record when that name is not empty and keeps the name it has otherwise,
    so a name that is set is never blanked; a record created by a fold is
    named (["Unknown"] at worst), hence every record the backfill builds is
    named and the live fold keeps a named map named. *)
Theorem name_is_never_blanked
    (Date_parse : string → JS.num) (toISOString : Z → string) :
  (∀ d m p r,
     JS.truthy (Raw.fc p) = true → JSMap.get (Raw.fc p) m = Some r →
     name <$> JSMap.get (Raw.fc p) (Backfill.visit d m p)
     = Some (if JS.truthy (Raw.name p) then Raw.name p else name r))
  ∧ (∀ d m p r,
       JS.truthy (Raw.fc p) = true → JSMap.get (Raw.fc p) m = Some r →
       name <$> JSMap.get (Raw.fc p) (GenerateStats.visit d m p)
       = Some (if JS.truthy (Raw.name p) then Raw.name p else name r))
  ∧ (∀ snapshotMap, named (Backfill.build Date_parse snapshotMap))
  ∧ (∀ base rows,
       named base → named (GenerateStats.processLive toISOString base rows)).
Proof.
  split_and!.
  - intros d m p r Ht Hget. by rewrite (backfill_visit_get _ _ _ _ Ht Hget).
  - intros d m p r Ht Hget. by rewrite (live_visit_get _ _ _ _ Ht Hget).
  - intros snapshotMap.
    refine (backfill_build_records (λ _ r, JS.truthy (name r) = true)
              _ _ Date_parse snapshotMap).
    + intros p dsc _. simpl. by apply truthy_logical_or_r.
    + intros k r p h Hr. simpl. by apply truthy_logical_or_r.
  - intros base rows.
    refine (live_records (λ _ r, JS.truthy (name r) = true)
              _ _ toISOString rows base).
    + intros p dsc _. simpl. by apply truthy_logical_or_r.
    + intros k r p h Hr. simpl. by apply truthy_logical_or_r.
Qed.

Lemma name_is_never_blanked_witness :
  name <$> JSMap.get (JS.JStr "1234-5678-9012")
             (GenerateStats.visit Sample.day31
                [(JS.JStr "1234-5678-9012", Sample.stored)]
                (Raw.mk (JS.JStr "1234-5678-9012") JS.JUndefined
                        (JS.JNum (JS.Num 5100)) JS.JUndefined))
  = Some (JS.JStr "Ann")
  ∧ named (GenerateStats.processLive Clock.toISOString
             [(JS.JStr "1234-5678-9012", Sample.stored)] Sample.rows).
Proof.
  destruct (name_is_never_blanked Clock.Date_parse Clock.toISOString)
    as (_ & Hlive & _ & Hnamed).
  split.
  - apply (Hlive Sample.day31 [(JS.JStr "1234-5678-9012", Sample.stored)]
             (Raw.mk (JS.JStr "1234-5678-9012") JS.JUndefined
                     (JS.JNum (JS.Num 5100)) JS.JUndefined) Sample.stored);
      reflexivity.
  - apply Hnamed. intros k r Hin. elem_cases Hin. by injection Hin as -> ->.
Defined.

(** ** Keys of the player map *)

Lemma backfill_visit_keys d m p :
  NoDup (JSMap.keys m) →
  NoDup (JSMap.keys (Backfill.visit d m p))
  ∧ JSMap.keys m `prefix_of` JSMap.keys (Backfill.visit d m p).
Proof.
  intros Hnd. unfold Backfill.visit.
  destruct (JS.truthy (Raw.fc p)); simpl; [|done].
  set (m1 := if negb (JSMap.has (Raw.fc p) m) then _ else m).
  assert (NoDup (JSMap.keys m1) ∧ JSMap.keys m `prefix_of` JSMap.keys m1)
    as [Hnd1 Hpre1].
  { subst m1. destruct (negb (JSMap.has (Raw.fc p) m)); [|done].
    split; [by apply keys_set_NoDup | apply keys_set_prefix]. }
  destruct (JSMap.get (Raw.fc p) m1); [|done].
  split; [by apply keys_set_NoDup|].
  etrans; [exact Hpre1 | apply keys_set_prefix].
Qed.

Lemma live_visit_keys d m p :
  NoDup (JSMap.keys m) →
  NoDup (JSMap.keys (GenerateStats.visit d m p))
  ∧ JSMap.keys m `prefix_of` JSMap.keys (GenerateStats.visit d m p).
Proof.
  intros Hnd. unfold GenerateStats.visit.
  destruct (JS.truthy (Raw.fc p)); simpl; [|done].
  set (m1 := if negb (JSMap.has (Raw.fc p) m) then _ else m).
  assert (NoDup (JSMap.keys m1) ∧ JSMap.keys m `prefix_of` JSMap.keys m1)
    as [Hnd1 Hpre1].
  { subst m1. destruct (negb (JSMap.has (Raw.fc p) m)); [|done].
    split; [by apply keys_set_NoDup | apply keys_set_prefix]. }
  destruct (JSMap.get (Raw.fc p) m1); [|done].
  destruct (negb (existsb _ _));
    (split; [by apply keys_set_NoDup|];
     etrans; [exact Hpre1 | apply keys_set_prefix]).
Qed.

Lemma live_keys toISOString rows base :
  NoDup (JSMap.keys base) →
  NoDup (JSMap.keys (GenerateStats.processLive toISOString base rows))
  ∧ JSMap.keys base
    `prefix_of` JSMap.keys (GenerateStats.processLive toISOString base rows).
Proof.
  intros Hnd. unfold GenerateStats.processLive.
  apply (foldl_invariant _
           (λ m, NoDup (JSMap.keys m)
                 ∧ JSMap.keys base `prefix_of` JSMap.keys m)); [|done].
  intros a row _ Ha. rewrite processRow_fold.
  apply (foldl_invariant _
           (λ m, NoDup (JSMap.keys m)
                 ∧ JSMap.keys base `prefix_of` JSMap.keys m)); [|done].
  intros a' p _ [Hnd' Hpre'].
  destruct (live_visit_keys (GenerateStats.rowDate toISOString row) a' p Hnd')
    as [? ?].
  split; [done | by etrans].
Qed.

Lemma backfill_build_keys Date_parse snapshotMap :
  NoDup (JSMap.keys (Backfill.build Date_parse snapshotMap)).
Proof.
  unfold Backfill.build.
  apply (foldl_invariant _ (λ m, NoDup (JSMap.keys m))); [|apply NoDup_nil_2].
  intros a d _ Ha. destruct (JSMap.get d snapshotMap) as [players|]; [|done].
  apply (foldl_invariant _ (λ m, NoDup (JSMap.keys m))); [|done].
  intros a' p _ Hnd. by apply backfill_visit_keys.
Qed.

Lemma loadFiles_invariant files m base :
  GenerateStats.loadFiles files m = Some base →
  keyed_by_fc m → NoDup (JSMap.keys m) →
  keyed_by_fc base ∧ NoDup (JSMap.keys base).
Proof.
  revert m. induction files as [|[file content] files IH]; intros m; simpl.
  - by intros [= <-].
  - destruct (negb (JS.endsWith file ".json")); [apply IH|].
    destruct content as [data|]; [|done].
    intros Hload Hkeyed Hnd. apply (IH _ Hload).
    + intros k r [?|[-> ->]]%elem_of_set; [by apply Hkeyed | done].
    + by apply keys_set_NoDup.
Qed.

(** X3: Every record of the map the backfill builds, and of the map the stats
    run merges, is stored under its own [fc], and no key occurs twice; the
    keys of the backfill are truthy.  The live fold removes no player: the
    keys of the base, in their order, open the keys of the result. *)
Theorem records_are_keyed_by_fc
    (Date_parse : string → JS.num) (toISOString : Z → string) :
  (∀ snapshotMap,
     keyed_by_fc (Backfill.build Date_parse snapshotMap)
     ∧ NoDup (JSMap.keys (Backfill.build Date_parse snapshotMap))
     ∧ ∀ k, k ∈ JSMap.keys (Backfill.build Date_parse snapshotMap) →
            JS.truthy k = true)
  ∧ (∀ fs rows playerMap,
       GenerateStats.merged toISOString fs rows = Some playerMap →
       keyed_by_fc playerMap ∧ NoDup (JSMap.keys playerMap))
  ∧ (∀ base rows,
       NoDup (JSMap.keys base) →
       JSMap.keys base
       `prefix_of` JSMap.keys (GenerateStats.processLive toISOString base rows)).
Proof.
  split_and!.
  - intros snapshotMap. split_and!.
    + refine (backfill_build_records (λ k r, fc r = k)
                _ _ Date_parse snapshotMap); by intros.
    + apply backfill_build_keys.
    + intros k (kr & -> & Hin)%list_elem_of_fmap. destruct kr as [k r].
      revert k r Hin.
      refine (backfill_build_records (λ k _, JS.truthy k = true)
                _ _ Date_parse snapshotMap); by intros.
  - intros fs rows playerMap. unfold GenerateStats.merged, GenerateStats.loadBase.
    destruct (GenerateStats.loadFiles _ []) as [base|] eqn:Hload; [|done].
    intros [= <-].
    destruct (loadFiles_invariant _ _ _ Hload) as [Hkeyed Hnd];
      [by intros k r ?%not_elem_of_nil | apply NoDup_nil_2 |].
    split.
    + revert Hkeyed.
      refine (live_records (λ k r, fc r = k) _ _ toISOString rows base);
        by intros.
    + by apply live_keys.
  - intros base rows Hnd. by apply live_keys.
Qed.

Lemma records_are_keyed_by_fc_witness :
  (∃ playerMap,
     GenerateStats.merged Clock.toISOString Sample.emptyFS Sample.rows
     = Some playerMap
     ∧ keyed_by_fc playerMap ∧ NoDup (JSMap.keys playerMap))
  ∧ [JS.JStr "1234-5678-9012"]
    `prefix_of` JSMap.keys
                  (GenerateStats.processLive Clock.toISOString
                     [(JS.JStr "1234-5678-9012", Sample.stored)] Sample.rows).
Proof.
  destruct (records_are_keyed_by_fc Clock.Date_parse Clock.toISOString)
    as (_ & Hmerged & Hprefix).
  split.
  - eexists. split; [vm_compute; reflexivity|]. apply (Hmerged Sample.emptyFS Sample.rows).
    vm_compute. reflexivity.
  - apply (Hprefix [(JS.JStr "1234-5678-9012", Sample.stored)] Sample.rows).
    apply NoDup_singleton.
Defined.

(** ** What the folds record *)

(** X4: Reconstruction only appends: the history a player has before a fold
    opens the history the player has after it, entry for entry. *)
Theorem histories_only_grow (toISOString : Z → string) :
  (∀ d players m k,
     history_of k m `prefix_of` history_of k (foldl (Backfill.visit d) m players))
  ∧ (∀ base rows k,
       history_of k base
       `prefix_of` history_of k (GenerateStats.processLive toISOString base rows)).
Proof.
  split.
  - intros d players m k.
    apply (foldl_invariant _ (λ a, history_of k m `prefix_of` history_of k a));
      [|done].
    intros a p _ Ha.
    destruct (backfill_visit_cases d a p k) as [-> | ->];
      [done | by apply prefix_app_r].
  - intros base rows k. unfold GenerateStats.processLive.
    apply (foldl_invariant _
             (λ a, history_of k base `prefix_of` history_of k a)); [|done].
    intros a row _ Ha. rewrite processRow_fold.
    apply (foldl_invariant _
             (λ a, history_of k base `prefix_of` history_of k a)); [|done].
    intros a' p _ Ha'.
    destruct (live_visit_cases (GenerateStats.rowDate toISOString row) a' p k)
      as [-> | [_ ->]]; [done | by apply prefix_app_r].
Qed.

Lemma elem_of_dates_snoc d' h e :
  d' ∈ dates (h ++ [e]) ↔ d' ∈ dates h ∨ d' = date e.
Proof.
  unfold dates. rewrite fmap_app, elem_of_app. simpl.
  by rewrite list_elem_of_singleton.
Qed.

Lemma live_players_dates d players m k d' :
  d' ∈ dates (history_of k (foldl (GenerateStats.visit d) m players)) ↔
  d' ∈ dates (history_of k m)
  ∨ (d' = d ∧ ∃ p, p ∈ players ∧ JS.truthy (Raw.fc p) = true ∧ Raw.fc p = k).
Proof.
  revert m. induction players as [|p players IH]; intros m; simpl.
  - split; [by left|]. intros [?|(_ & p & ?%not_elem_of_nil & _)]; done.
  - rewrite IH.
    assert (d' ∈ dates (history_of k (GenerateStats.visit d m p)) ↔
            d' ∈ dates (history_of k m)
            ∨ (d' = d ∧ JS.truthy (Raw.fc p) = true ∧ Raw.fc p = k)) as ->.
    { destruct (JS.truthy (Raw.fc p)) eqn:Ht;
        [destruct (decide (Raw.fc p = k)) as [<-|Hne]|].
      - rewrite live_visit_same by done. case_decide as Hd.
        + split; [by left|]. by intros [?|(-> & _)].
        + rewrite elem_of_dates_snoc. simpl. split.
          * intros [?| ->]; [by left | by right].
          * intros [?|(-> & _)]; [by left | by right].
      - rewrite live_visit_other by (by right). split; [by left|].
        by intros [?|(_ & _ & ?)].
      - rewrite live_visit_other by (by left). split; [by left|].
        by intros [?|(_ & ? & _)]. }
    split.
    + intros [[?|(-> & Ht & Hk)]|(-> & q & Hq & Ht & Hk)]; [by left | |].
      * right. split; [done|]. exists p. split; [apply list_elem_of_here | done].
      * right. split; [done|]. exists q. split; [by apply list_elem_of_further | done].
    + intros [?|(-> & q & [->|Hq]%elem_of_cons & Ht & Hk)].
      * by left; left.
      * left; right. done.
      * right. split; [done|]. by exists q.
Qed.

Lemma live_rows_dates toISOString rows m k d' :
  d' ∈ dates (history_of k (foldl (GenerateStats.processRow toISOString) m rows)) ↔
  d' ∈ dates (history_of k m)
  ∨ ∃ row p, row ∈ rows ∧ p ∈ rowPlayers row
             ∧ JS.truthy (Raw.fc p) = true ∧ Raw.fc p = k
             ∧ d' = GenerateStats.rowDate toISOString row.
Proof.
  revert m. induction rows as [|row rows IH]; intros m; simpl.
  - split; [by left|]. intros [?|(row & p & ?%not_elem_of_nil & _)]; done.
  - rewrite IH, processRow_fold, live_players_dates. split.
    + intros [[?|(-> & p & Hp & Ht & Hk)]|(r & p & Hr & Hp & Ht & Hk & ->)].
      * by left.
      * right. exists row, p. split_and!; [apply list_elem_of_here | done..].
      * right. exists r, p. split_and!; [by apply list_elem_of_further | done..].
    + intros [?|(r & p & [->|Hr]%elem_of_cons & Hp & Ht & Hk & ->)].
      * by left; left.
      * left; right. split; [done|]. by exists p.
      * right. exists r, p. done.
Qed.

Lemma elem_of_concat_replicate_iff (n : string → nat) (ds : list string) x :
  x ∈ concat ((λ d, replicate (n d) d) <$> ds) ↔ x ∈ ds ∧ n x ≠ 0%nat.
Proof.
  induction ds as [|d ds IH]; simpl.
  - split; [by intros ?%not_elem_of_nil | by intros [?%not_elem_of_nil _]].
  - rewrite elem_of_app, IH, elem_of_replicate, elem_of_cons. split.
    + intros [[-> ?]|[? ?]]; [by split; [left|] | by split; [right|]].
    + intros [[->|?] ?]; [by left | by right].
Qed.

Lemma occurrences_nonzero k players :
  occurrences k players ≠ 0%nat ↔
  ∃ p, p ∈ players ∧ JS.truthy (Raw.fc p) = true ∧ Raw.fc p = k.
Proof.
  unfold occurrences. split.
  - intros Hlen.
    destruct (filter _ players) as [|p l] eqn:Hf; [done|].
    assert (p ∈ filter (λ p, JS.truthy (Raw.fc p) = true ∧ Raw.fc p = k) players)
      as [[? ?] ?]%list_elem_of_filter by (rewrite Hf; apply list_elem_of_here).
    by exists p.
  - intros (p & Hp & Ht & Hk).
    assert (p ∈ filter (λ p, JS.truthy (Raw.fc p) = true ∧ Raw.fc p = k) players)
      as Hin by (by apply list_elem_of_filter).
    destruct (filter _ players); [by apply not_elem_of_nil in Hin | done].
Qed.

(** X5: A history holds a date exactly when a snapshot with that date lists the
    player: in the live fold, besides the dates of the base, the dates of the
    rows whose records carry the key; in the backfill, the dates of the
    revisions whose records carry the key.  No snapshot of a player is left
    out and no date is made up. *)
Theorem dates_are_those_of_the_snapshots
    (Date_parse : string → JS.num) (toISOString : Z → string) :
  (∀ base rows k d,
     d ∈ dates (history_of k (GenerateStats.processLive toISOString base rows)) ↔
     d ∈ dates (history_of k base)
     ∨ ∃ row p, row ∈ rows ∧ p ∈ rowPlayers row
                ∧ JS.truthy (Raw.fc p) = true ∧ Raw.fc p = k
                ∧ d = GenerateStats.rowDate toISOString row)
  ∧ (∀ snapshotMap k d,
       d ∈ dates (history_of k (Backfill.build Date_parse snapshotMap)) ↔
       ∃ players p, JSMap.get d snapshotMap = Some players ∧ p ∈ players
                    ∧ JS.truthy (Raw.fc p) = true ∧ Raw.fc p = k).
Proof.
  split.
  - intros base rows k d. unfold GenerateStats.processLive.
    rewrite live_rows_dates. unfold GenerateStats.sortRows.
    by setoid_rewrite elem_of_sort.
  - intros snapshotMap k d. unfold Backfill.build.
    rewrite backfill_fold_dates. simpl.
    rewrite (elem_of_concat_replicate_iff
               (λ d, occurrences k (default [] (JSMap.get d snapshotMap)))).
    rewrite occurrences_nonzero. unfold Backfill.sortedDates.
    rewrite elem_of_sort. split.
    + intros (_ & p & Hp & Ht & Hk).
      destruct (JSMap.get d snapshotMap) as [players|];
        [by exists players, p | by apply not_elem_of_nil in Hp].
    + intros (players & p & Hget & Hp & Ht & Hk). split.
      * apply get_Some_elem in Hget. unfold JSMap.keys.
        apply list_elem_of_fmap. by exists (d, players).
      * rewrite Hget. by exists p.
Qed.

(** ** The order of the input does not matter *)

Section sort_by_key.
Context {A : Type} (key : A → Z) (cmp : A → A → JS.num).

Lemma sort_insert_sorted x s :
  (∀ y, y ∈ s → cmp x y = JS.Num (key x - key y)) →
  StronglySorted (λ a b, key a ≤ key b) s →
  StronglySorted (λ a b, key a ≤ key b) (sort_insert cmp x s).
Proof.
  induction s as [|y s IH]; intros Hcmp Hs; simpl.
  - repeat constructor.
  - rewrite (Hcmp y) by apply list_elem_of_here. simpl.
    apply StronglySorted_cons in Hs as [Hall Hs].
    destruct (Z.ltb_spec 0 (key x - key y)).
    + apply StronglySorted_cons. split.
      * rewrite sort_insert_perm. constructor; [lia | done].
      * apply IH; [|done]. intros z Hz. by apply Hcmp, list_elem_of_further.
    + apply StronglySorted_cons. split; [|by apply StronglySorted_cons].
      constructor; [lia|]. eapply Forall_impl; [exact Hall|].
      simpl. intros; lia.
Qed.

Lemma sort_sorted l :
  (∀ a b, a ∈ l → b ∈ l → cmp a b = JS.Num (key a - key b)) →
  StronglySorted (λ a b, key a ≤ key b) (sort cmp l).
Proof.
  induction l as [|x l IH]; intros Hcmp; simpl; [constructor|].
  apply sort_insert_sorted.
  - intros y Hy%elem_of_sort.
    apply Hcmp; [apply list_elem_of_here | by apply list_elem_of_further].
  - apply IH. intros a b Ha Hb. by apply Hcmp; apply list_elem_of_further.
Qed.

Lemma key_inj_on l a b :
  NoDup (key <$> l) → a ∈ l → b ∈ l → key a = key b → a = b.
Proof.
  induction l as [|x l IH]; simpl; [by intros _ ?%not_elem_of_nil|].
  intros [Hx Hnd]%NoDup_cons [->|Ha]%elem_of_cons [->|Hb]%elem_of_cons Hk.
  - done.
  - exfalso. apply Hx. rewrite Hk. apply list_elem_of_fmap. by exists b.
  - exfalso. apply Hx. rewrite <- Hk. apply list_elem_of_fmap. by exists a.
  - by apply IH.
Qed.

(** Two arrangements of the same elements, with pairwise different keys,
    sort to the same list. *)
Lemma sort_perm_unique l l' :
  l ≡ₚ l' → NoDup (key <$> l) →
  (∀ a b, a ∈ l → b ∈ l → cmp a b = JS.Num (key a - key b)) →
  sort cmp l = sort cmp l'.
Proof.
  intros Hperm Hnd Hcmp.
  apply (StronglySorted_unique_strong (λ a b, key a ≤ key b)).
  - intros x1 x2 Hx1%elem_of_sort Hx2%elem_of_sort H12 H21.
    rewrite <- Hperm in Hx2. apply (key_inj_on l); [done..|lia].
  - by apply sort_sorted.
  - apply sort_sorted. intros a b Ha Hb. rewrite <- Hperm in Ha, Hb.
    by apply Hcmp.
  - by rewrite !sort_perm.
Qed.

(** A list in ascending order of its keys is left as it is. *)
Lemma sort_of_sorted l :
  (∀ a b, a ∈ l → b ∈ l → cmp a b = JS.Num (key a - key b)) →
  StronglySorted (λ a b, key a ≤ key b) l → sort cmp l = l.
Proof.
  induction l as [|x l IH]; intros Hcmp Hs; simpl; [done|].
  apply StronglySorted_cons in Hs as [Hall Hs].
  rewrite IH; [|by intros a b Ha Hb; apply Hcmp; apply list_elem_of_further|done].
  destruct l as [|y l]; simpl; [done|].
  rewrite Hcmp; [|apply list_elem_of_here
                 |apply list_elem_of_further, list_elem_of_here].
  simpl. apply Forall_cons in Hall as [Hxy _].
  by rewrite (proj2 (Z.ltb_ge 0 (key x - key y))) by lia.
Qed.
End sort_by_key.

Lemma collect_NoDup (fetched acc : list (string * list Raw.t)) :
  NoDup (JSMap.keys acc ++ fetched.*1) →
  foldl (λ snapshotMap '(date, players), JSMap.set date players snapshotMap)
        acc fetched
  = acc ++ fetched.
Proof.
  revert acc. induction fetched as [|[d players] fetched IH]; intros acc Hnd; simpl.
  - by rewrite app_nil_r.
  - assert (JSMap.set d players acc = acc ++ [(d, players)]) as ->.
    { assert (d ∉ JSMap.keys acc) as Hd.
      { apply NoDup_app in Hnd as (_ & Hdisj & _). intros Hin.
        apply (Hdisj d Hin). apply list_elem_of_here. }
      clear -Hd. unfold JSMap.keys in Hd.
      induction acc as [|[k v] acc IH]; simpl; [done|].
      simpl in Hd. apply not_elem_of_cons in Hd as [Hne Hd].
      rewrite decide_False by done. by rewrite IH. }
    rewrite IH; [by rewrite <- app_assoc|].
    unfold JSMap.keys in *. rewrite fmap_app. simpl.
    rewrite <- app_assoc. simpl. simpl in Hnd. done.
Qed.

Lemma foldl_ext_in {A B} (f g : A → B → A) (l : list B) a :
  (∀ a b, b ∈ l → f a b = g a b) → foldl f a l = foldl g a l.
Proof.
  revert a. induction l as [|b l IH]; intros a Hfg; simpl; [done|].
  rewrite Hfg by apply list_elem_of_here.
  apply IH. intros a' b' Hb'. by apply Hfg, list_elem_of_further.
Qed.

(** X6: The outcome of reconstruction does not depend on the order in which the
    snapshots arrive: feed rows with pairwise different timestamps give the
    same player map in any order, and so do the revisions of the backfill in
    any order of completion of the fetch tasks, when their dates are pairwise
    different and parse to pairwise different instants. *)
Theorem arrival_order_is_irrelevant
    (Date_parse : string → JS.num) (toISOString : Z → string) :
  (∀ base rows rows',
     rows ≡ₚ rows' → NoDup (GenerateStats.timestamp <$> rows) →
     GenerateStats.processLive toISOString base rows
     = GenerateStats.processLive toISOString base rows')
  ∧ (∀ (time : string → Z) fetched fetched',
       fetched ≡ₚ fetched' →
       (∀ d, d ∈ fetched.*1 → Date_parse d = JS.Num (time d)) →
       NoDup (time <$> fetched.*1) →
       Backfill.build Date_parse (Backfill.collect fetched)
       = Backfill.build Date_parse (Backfill.collect fetched')).
Proof.
  split.
  - intros base rows rows' Hperm Hnd.
    unfold GenerateStats.processLive, GenerateStats.sortRows.
    f_equal. by apply (sort_perm_unique GenerateStats.timestamp).
  - intros time fetched fetched' Hperm Hvalid Hnd.
    assert (NoDup fetched.*1) as Hkeys by (by apply NoDup_fmap_1 in Hnd).
    assert (NoDup fetched'.*1) as Hkeys' by (by rewrite <- Hperm).
    unfold Backfill.collect.
    rewrite !(collect_NoDup _ []) by done. simpl.
    unfold Backfill.build, Backfill.sortedDates, JSMap.keys.
    rewrite <- (sort_perm_unique time _ fetched.*1 fetched'.*1);
      [|by rewrite Hperm | done|].
    + apply foldl_ext_in. intros a d _.
      by rewrite (get_perm d fetched fetched').
    + intros a b Ha Hb. by rewrite (Hvalid a), (Hvalid b).
Qed.

Lemma arrival_order_is_irrelevant_witness :
  GenerateStats.processLive Clock.toISOString [] Sample.rows
  = GenerateStats.processLive Clock.toISOString [] (reverse Sample.rows)
  ∧ Backfill.build Clock.Date_parse (Backfill.collect Sample.fetched)
    = Backfill.build Clock.Date_parse (Backfill.collect (reverse Sample.fetched)).
Proof.
  destruct (arrival_order_is_irrelevant Clock.Date_parse Clock.toISOString)
    as [Hlive Hback].
  split.
  - apply Hlive.
    + symmetry. apply reverse_Permutation.
    + refine (bool_decide_unpack _ _). vm_compute. exact I.
  - apply (Hback (λ d, match Clock.Date_parse d with
                       | JS.Num t => t
                       | JS.NaN => 0
                       end)).
    + symmetry. apply reverse_Permutation.
    + intros d Hd. unfold Sample.fetched in Hd. simpl in Hd.
      elem_cases Hd; vm_compute; reflexivity.
    + refine (bool_decide_unpack _ _). vm_compute. exact I.
Defined.

(** ** Runs of the stats and pruning engine, one after the other *)

Lemma filter_filter_weaker {A} (P Q : A → Prop)
      `{∀ x, Decision (P x)} `{∀ x, Decision (Q x)} (l : list A) :
  (∀ x, x ∈ l → Q x → P x) → filter Q (filter P l) = filter Q l.
Proof.
  induction l as [|x l IH]; intros HQP; [done|].
  assert (filter Q (filter P l) = filter Q l) as IH'
    by (apply IH; intros y Hy; by apply HQP, list_elem_of_further).
  rewrite !filter_cons. destruct (decide (Q x)) as [Hq|Hq].
  - rewrite decide_True by (by apply HQP; [apply list_elem_of_here|]).
    rewrite filter_cons, decide_True by done. by rewrite IH'.
  - destruct (decide (P x)); [|done].
    by rewrite filter_cons, decide_False by done.
Qed.

Section reruns.
Variable Date_parse : string → JS.num.

Lemma pruned_sorted now data :
  (∀ e, e ∈ vr_history data → ∃ t, Date_parse (date e) = JS.Num t) →
  StronglySorted (earlier Date_parse) (pruned Date_parse now data).
Proof.
  intros Hvalid. unfold pruned, GenerateStats.prune.
  by apply filter_sorted, sortHistory_sorted.
Qed.

Lemma sortHistory_pruned now data :
  (∀ e, e ∈ vr_history data → ∃ t, Date_parse (date e) = JS.Num t) →
  GenerateStats.sortHistory Date_parse (pruned Date_parse now data)
  = pruned Date_parse now data.
Proof.
  intros Hvalid. unfold GenerateStats.sortHistory.
  apply (sort_of_sorted (time_of Date_parse)); [|by apply pruned_sorted].
  intros a b (_ & ta & Ha & _)%elem_of_pruned (_ & tb & Hb & _)%elem_of_pruned.
  unfold time_of. by rewrite Ha, Hb.
Qed.

(** Pruning at [now'] what a run at an earlier [now] kept gives what
    pruning the original history at [now'] gives. *)
Lemma pruned_pruned now now' data h :
  (∀ e, e ∈ vr_history data → ∃ t, Date_parse (date e) = JS.Num t) →
  now ≤ now' →
  pruned Date_parse now' (with_history (pruned Date_parse now data) h)
  = pruned Date_parse now' data.
Proof.
  intros Hvalid Hle. unfold pruned at 1. simpl.
  rewrite sortHistory_pruned by done.
  unfold pruned, GenerateStats.prune. apply filter_filter_weaker.
  intros e _. destruct (Date_parse (date e)) as [t|]; simpl; [|done].
  rewrite !Z.leb_le. lia.
Qed.
End reruns.

Lemma discordSync_idempotent stored cacheProfile :
  GenerateStats.discordSync (GenerateStats.discordSync stored cacheProfile)
                            cacheProfile
  = GenerateStats.discordSync stored cacheProfile.
Proof.
  unfold GenerateStats.discordSync.
  set (stored1 := if negb (JS.truthy stored) then JS.JStr "unknown" else stored).
  assert (JS.truthy stored1 = true) as Ht
    by (subst stored1; by destruct (JS.truthy stored) eqn:Hs).
  destruct (JS.truthy cacheProfile) eqn:Hc.
  - destruct (bool_decide (cacheProfile = JS.JStr "not_linked")) eqn:Hn; [|done].
    destruct (bool_decide (stored1 = JS.JStr "unknown")
              || bool_decide (stored1 = JS.JStr "not_linked")) eqn:Hs; [done|].
    rewrite Ht. simpl. by rewrite Hs.
  - by rewrite Ht.
Qed.

(** X7: Running step 4 again at the same instant on what it produced changes
    nothing (for a history whose dates all parse): the record, and whether
    it is written, are the same. *)
Theorem finalize_is_idempotent
    (Date_parse : string → JS.num) (now : Z)
    (discordCache : gmap string JS.jsval) (k : JS.jsval) (data : PlayerRecord) :
  (∀ e, e ∈ vr_history data → ∃ t, Date_parse (date e) = JS.Num t) →
  GenerateStats.finalize Date_parse now discordCache k
    (GenerateStats.finalize Date_parse now discordCache k data).1
  = GenerateStats.finalize Date_parse now discordCache k data.
Proof.
  intros Hvalid.
  destruct (pruned Date_parse now data) as [|first rest] eqn:Hp.
  - rewrite (finalize_empty _ _ _ _ _ Hp). simpl.
    etrans; [by apply finalize_empty | done].
  - pose proof (finalize_nonempty _ _ discordCache k _ _ _ Hp) as H1.
    pose proof (finalize_save Date_parse now discordCache k data) as H2.
    rewrite Hp in H2. specialize (H2 ltac:(done)).
    destruct (GenerateStats.finalize Date_parse now discordCache k data)
      as [data1 save] eqn:Hf.
    simpl in H1, H2. subst save. simpl.
    assert (pruned Date_parse now data1 = first :: rest) as Hp1.
    { rewrite H1. simpl. rewrite <- Hp.
      apply (pruned_pruned Date_parse now now data data Hvalid). lia. }
    pose proof (finalize_nonempty _ _ discordCache k _ _ _ Hp1) as H1'.
    pose proof (finalize_save Date_parse now discordCache k data1) as H2'.
    rewrite Hp1 in H2'. specialize (H2' ltac:(done)).
    destruct (GenerateStats.finalize Date_parse now discordCache k data1)
      as [data2 save'].
    simpl in H1', H2'. subst save'. f_equal.
    rewrite H1', H1. simpl.
    unfold with_discord, with_stats, with_history. simpl.
    by rewrite discordSync_idempotent.
Qed.

Lemma finalize_is_idempotent_witness :
  GenerateStats.finalize Clock.Date_parse Sample.now ∅ (JS.JStr "1234-5678-9012")
    (GenerateStats.finalize Clock.Date_parse Sample.now ∅
       (JS.JStr "1234-5678-9012") Sample.stored).1
  = GenerateStats.finalize Clock.Date_parse Sample.now ∅
      (JS.JStr "1234-5678-9012") Sample.stored.
Proof.
  apply finalize_is_idempotent.
  intros e He. unfold Sample.stored in He. simpl in He.
  elem_cases He; eexists; vm_compute; reflexivity.
Defined.

(** X8: Entries age out progressively: what a run keeps of a history at a later
    instant, an earlier run kept too, and pruning the output of the earlier
    run at the later instant gives the history a single run at the later
    instant would have kept of the original (for dates that all parse). *)
Theorem pruning_composes_across_runs
    (Date_parse : string → JS.num) (now now' : Z)
    (discordCache discordCache' : gmap string JS.jsval)
    (k : JS.jsval) (data : PlayerRecord) :
  now ≤ now' →
  (∀ e, e ∈ vr_history data → ∃ t, Date_parse (date e) = JS.Num t) →
  (∀ e,
     e ∈ vr_history (GenerateStats.finalize Date_parse now' discordCache' k data).1 →
     e ∈ vr_history (GenerateStats.finalize Date_parse now discordCache k data).1)
  ∧ vr_history
      (GenerateStats.finalize Date_parse now' discordCache' k
         (GenerateStats.finalize Date_parse now discordCache k data).1).1
    = vr_history (GenerateStats.finalize Date_parse now' discordCache' k data).1.
Proof.
  intros Hle Hvalid. split.
  - intros e. rewrite !finalize_history.
    intros (He & t & Ht & Hage)%elem_of_pruned. apply elem_of_pruned.
    split; [done|]. exists t. split; [done | lia].
  - rewrite !finalize_history.
    pose proof (finalize_history Date_parse now discordCache k data) as Hh.
    destruct (GenerateStats.finalize Date_parse now discordCache k data)
      as [data1 save]. simpl in *.
    rewrite <- (pruned_pruned Date_parse now now' data data1 Hvalid Hle).
    unfold pruned. simpl. by rewrite Hh.
Qed.

Lemma pruning_composes_across_runs_witness :
  vr_history
    (GenerateStats.finalize Clock.Date_parse (Sample.now + 1) ∅
       (JS.JStr "1234-5678-9012")
       (GenerateStats.finalize Clock.Date_parse Sample.now ∅
          (JS.JStr "1234-5678-9012") Sample.stored).1).1
  = vr_history
      (GenerateStats.finalize Clock.Date_parse (Sample.now + 1) ∅
         (JS.JStr "1234-5678-9012") Sample.stored).1.
Proof.
  apply (pruning_composes_across_runs Clock.Date_parse Sample.now (Sample.now + 1)).
  - vm_compute. discriminate.
  - intros e He. unfold Sample.stored in He. simpl in He.
    elem_cases He; eexists; vm_compute; reflexivity.
Defined.

(** ** What step 4 leaves in a record *)

(** X9: The history step 4 leaves in a record is in ascending order of time,
    for dates that all parse: an entry never precedes an earlier one. *)
Theorem finalized_history_is_chronological
    (Date_parse : string → JS.num) (now : Z)
    (discordCache : gmap string JS.jsval) (k : JS.jsval) (data : PlayerRecord)
    (i j : nat) (e1 e2 : HistoryEntry) :
  (∀ e, e ∈ vr_history data → ∃ t, Date_parse (date e) = JS.Num t) →
  (i < j)%nat →
  vr_history (GenerateStats.finalize Date_parse now discordCache k data).1 !! i
  = Some e1 →
  vr_history (GenerateStats.finalize Date_parse now discordCache k data).1 !! j
  = Some e2 →
  ∃ t1 t2, Date_parse (date e1) = JS.Num t1 ∧ Date_parse (date e2) = JS.Num t2
           ∧ t1 ≤ t2.
Proof.
  rewrite finalize_history. intros Hvalid Hij H1 H2.
  pose proof (pruned_sorted Date_parse now data Hvalid) as Hsorted.
  assert (e1 ∈ pruned Date_parse now data) as (_ & t1 & Ht1 & _)%elem_of_pruned
    by (apply list_elem_of_lookup; by exists i).
  assert (e2 ∈ pruned Date_parse now data) as (_ & t2 & Ht2 & _)%elem_of_pruned
    by (apply list_elem_of_lookup; by exists j).
  exists t1, t2. split; [done|]. split; [done|].
  apply lookup_lt_Some in H2 as Hj.
  rewrite <- (take_drop_middle _ _ _ H2) in Hsorted, H1.
  rewrite lookup_app_l in H1 by (rewrite length_take; lia).
  apply StronglySorted_app in Hsorted as (Hcross & _ & _).
  assert (earlier Date_parse e1 e2) as He.
  { apply Hcross; [by eapply list_elem_of_lookup_2 | apply list_elem_of_here]. }
  unfold earlier, time_of in He. by rewrite Ht1, Ht2 in He.
Qed.

Lemma finalized_history_is_chronological_witness :
  ∃ t1 t2,
    Clock.Date_parse "2024-01-01T01:00:00.000Z" = JS.Num t1
    ∧ Clock.Date_parse Sample.day31 = JS.Num t2 ∧ t1 ≤ t2.
Proof.
  apply (finalized_history_is_chronological Clock.Date_parse Sample.now ∅
           (JS.JStr "1234-5678-9012") Sample.stored 0 1
           {| date := "2024-01-01T01:00:00.000Z"; vrChange := JS.Num 900;
              totalVR := JS.Num 4900 |}
           {| date := Sample.day31; vrChange := JS.Num 100;
              totalVR := JS.Num 5000 |}).
  - intros e He. unfold Sample.stored in He. simpl in He.
    elem_cases He; eexists; vm_compute; reflexivity.
  - lia.
  - vm_compute. reflexivity.
  - vm_compute. reflexivity.
Defined.

(** X10: The 30-day statistic spans the whole retained history: every retained
    entry lies inside the window, so [lastMonth] is the total of the last
    retained entry minus the total of the first one. *)
Theorem lastMonth_spans_the_retained_history
    (Date_parse : string → JS.num) (now : Z)
    (discordCache : gmap string JS.jsval) (k : JS.jsval) (data : PlayerRecord)
    (first : HistoryEntry) (rest : list HistoryEntry) :
  vr_history (GenerateStats.finalize Date_parse now discordCache k data).1
  = first :: rest →
  lastMonth <$> vrStats (GenerateStats.finalize Date_parse now discordCache k data).1
  = Some (JS.sub (totalVR (List.last (first :: rest) first)) (totalVR first)).
Proof.
  rewrite finalize_history. intros Hp.
  rewrite (finalize_nonempty _ _ _ _ _ _ _ Hp). simpl. do 2 f_equal.
  assert (first ∈ pruned Date_parse now data) as (_ & t & Ht & Hage)%elem_of_pruned
    by (rewrite Hp; apply list_elem_of_here).
  unfold GenerateStats.getVRAt. simpl. rewrite Ht. simpl.
  by rewrite (proj2 (Z.leb_le (now - GenerateStats.thirtyDays) t)) by lia.
Qed.

Lemma lastMonth_spans_the_retained_history_witness :
  lastMonth <$> vrStats (GenerateStats.finalize Clock.Date_parse Sample.now ∅
                           (JS.JStr "1234-5678-9012") Sample.stored).1
  = Some (JS.Num 100).
Proof.
  apply (lastMonth_spans_the_retained_history Clock.Date_parse Sample.now ∅
           (JS.JStr "1234-5678-9012") Sample.stored
           {| date := "2024-01-01T01:00:00.000Z"; vrChange := JS.Num 900;
              totalVR := JS.Num 4900 |}
           [ {| date := Sample.day31; vrChange := JS.Num 100;
                totalVR := JS.Num 5000 |} ]).
  vm_compute. reflexivity.
Defined.

(** ** What a run does to the files *)

Lemma finalizeAll_keeps_files Date_parse now discordCache entries dir :
  dom dir ⊆ dom (GenerateStats.finalizeAll Date_parse now discordCache
                   entries dir).1.2.
Proof.
  revert dir. induction entries as [|[k data] entries IH]; intros dir; simpl;
    [done|].
  destruct (GenerateStats.finalize Date_parse now discordCache k data)
    as [data' [|]]; simpl.
  - destruct k as [| | | |s]; simpl; try done.
    specialize (IH (<[fileName s := JsonFile data']> dir)).
    destruct (GenerateStats.finalizeAll _ _ _ entries _) as [[? dir'] ?].
    simpl in *. etrans; [|exact IH]. rewrite dom_insert. set_solver.
  - specialize (IH dir).
    by destruct (GenerateStats.finalizeAll _ _ _ entries dir) as [[? dir'] ?].
Qed.

(** X11: A stats run deletes no player file: every file of the players directory
    is still there after the run, however the run ends.  The archive is
    removed by a run that completes and left in place by a run that fails. *)
Theorem run_deletes_no_player_file
    (Date_parse : string → JS.num) (toISOString : Z → string)
    (fs : GenerateStats.FS) (rows : list GenerateStats.Row)
    (discordCache : gmap string JS.jsval) (now : Z) :
  dom (GenerateStats.players fs)
  ⊆ dom (GenerateStats.players
           (GenerateStats.run Date_parse toISOString fs rows discordCache now).1)
  ∧ match (GenerateStats.run Date_parse toISOString fs rows discordCache now).2 with
    | Completed =>
        GenerateStats.archive
          (GenerateStats.run Date_parse toISOString fs rows discordCache now).1
        = None
    | Failed =>
        GenerateStats.archive
          (GenerateStats.run Date_parse toISOString fs rows discordCache now).1
        = GenerateStats.archive fs
    end.
Proof.
  unfold GenerateStats.run.
  destruct (GenerateStats.merged toISOString fs rows) as [playerMap|]; [|done].
  pose proof (finalizeAll_keeps_files Date_parse now discordCache playerMap
                (GenerateStats.players fs)) as Hdom.
  destruct (GenerateStats.finalizeAll _ _ _ playerMap _) as [[final dir] o].
  by destruct o.
Qed.


(** ** From the backfill to the stats run *)











(** ** The revision list *)

Lemma append_assoc (a b c : string) : (a +:+ b) +:+ c = a +:+ (b +:+ c).
Proof.
  induction a as [|x a IH]; [done|].
  change (String x ((a +:+ b) +:+ c) = String x (a +:+ (b +:+ c))).
  by rewrite IH.
Qed.

Lemma free_append sep a b :
  CommitLog.free sep (a +:+ b) = CommitLog.free sep a && CommitLog.free sep b.
Proof.
  induction a as [|x a IH]; simpl; [done|].
  rewrite IH. by rewrite andb_assoc.
Qed.

Lemma split_free sep s :
  CommitLog.free sep s = true → CommitLog.split sep s = (s, []).
Proof.
  induction s as [|c s IH]; simpl; [done|].
  intros [Hc Hs]%andb_prop. rewrite (IH Hs).
  apply negb_true_iff in Hc. by rewrite Hc.
Qed.

Lemma split_append sep a b :
  CommitLog.free sep a = true →
  CommitLog.split sep (a +:+ String sep b)
  = (a, (CommitLog.split sep b).1 :: (CommitLog.split sep b).2).
Proof.
  induction a as [|c a IH]; simpl.
  - intros _. rewrite Ascii.eqb_refl. by destruct (CommitLog.split sep b).
  - intros [Hc Ha]%andb_prop. rewrite (IH Ha).
    apply negb_true_iff in Hc. by rewrite Hc.
Qed.

Lemma split_trailing sep s :
  CommitLog.split sep (s +:+ String sep EmptyString)
  = ((CommitLog.split sep s).1, (CommitLog.split sep s).2 ++ [EmptyString]).
Proof.
  induction s as [|c s IH]; simpl.
  - by rewrite Ascii.eqb_refl.
  - rewrite IH. destruct (CommitLog.split sep s) as [piece pieces]. simpl.
    by destruct (Ascii.eqb c sep).
Qed.

Lemma blank_with_bar a b : CommitLog.blank (a +:+ String "|"%char b) = false.
Proof.
  induction a as [|c a IH]; simpl; [done|].
  rewrite IH. apply andb_false_r.
Qed.

Lemma ofLine_of_commit h d :
  CommitLog.plain h = true → CommitLog.plain d = true →
  CommitLog.ofLine (h +:+ "|" +:+ d)
  = {| CommitLog.hash := h; CommitLog.date := Some d |}.
Proof.
  unfold CommitLog.plain, CommitLog.ofLine.
  intros [Hh _]%andb_prop [Hd _]%andb_prop.
  change (h +:+ "|" +:+ d) with (h +:+ String "|"%char d).
  by rewrite (split_append _ _ _ Hh), (split_free _ _ Hd).
Qed.

Lemma lines_of_logOutput c cs :
  Forall (λ c, CommitLog.plain c.1 = true ∧ CommitLog.plain c.2 = true) (c :: cs) →
  CommitLog.split "010"%char (CommitLog.logOutputOf (c :: cs))
  = (c.1 +:+ "|" +:+ c.2, (λ c, c.1 +:+ "|" +:+ c.2) <$> cs).
Proof.
  revert c. induction cs as [|c' cs IH]; intros [h d] Hall.
  - apply Forall_cons in Hall as [[Hh Hd] _]. simpl in *.
    apply split_free. unfold CommitLog.plain in *.
    apply andb_prop in Hh as [_ Hh]. apply andb_prop in Hd as [_ Hd].
    change (h +:+ "|" +:+ d) with (h +:+ String "|"%char d).
    rewrite free_append. simpl. by rewrite Hh, Hd.
  - apply Forall_cons in Hall as [[Hh Hd] Hall]. simpl in Hh, Hd.
    change (CommitLog.logOutputOf ((h, d) :: c' :: cs))
      with (h +:+ "|" +:+ d +:+ String "010"%char (CommitLog.logOutputOf (c' :: cs))).
    replace (h +:+ "|" +:+ d +:+ String "010"%char (CommitLog.logOutputOf (c' :: cs)))
      with ((h +:+ "|" +:+ d)
            +:+ String "010"%char (CommitLog.logOutputOf (c' :: cs)))
      by (by rewrite !append_assoc).
    rewrite split_append.
    + rewrite (IH c' Hall). done.
    + unfold CommitLog.plain in *.
      apply andb_prop in Hh as [_ Hh]. apply andb_prop in Hd as [_ Hd].
      change (h +:+ "|" +:+ d) with (h +:+ String "|"%char d).
      rewrite free_append. simpl. by rewrite Hh, Hd.
Qed.

(** X13: The revision list read back from the log: for commits whose hash and
    date hold no [|] and no newline, the parsed list is the list of the
    commits in reverse order, oldest first, each with its date; an empty log
    gives no commit, and a newline after the last line changes nothing. *)
Theorem commits_of_log_output (cs : list (string * string)) (logOutput : string) :
  Forall (λ c, CommitLog.plain c.1 = true ∧ CommitLog.plain c.2 = true) cs →
  CommitLog.commits (CommitLog.logOutputOf cs)
  = reverse ((λ c, {| CommitLog.hash := c.1; CommitLog.date := Some c.2 |}) <$> cs)
  ∧ CommitLog.commits (logOutput +:+ String "010"%char EmptyString)
    = CommitLog.commits logOutput.
Proof.
  intros Hall. split.
  - unfold CommitLog.commits. destruct cs as [|c cs]; [done|].
    rewrite (lines_of_logOutput c cs Hall). f_equal.
    change ((c.1 +:+ "|" +:+ c.2) :: ((λ c, c.1 +:+ "|" +:+ c.2) <$> cs))
      with ((λ c, c.1 +:+ "|" +:+ c.2) <$> (c :: cs)).
    clear -Hall. induction Hall as [|[h d] l [Hh Hd] Hl IH]; [done|].
    simpl in Hh, Hd. rewrite fmap_cons, filter_cons. simpl.
    change (h +:+ "|" +:+ d) with (h +:+ String "|"%char d).
    rewrite blank_with_bar. rewrite decide_True by done.
    rewrite fmap_cons. rewrite IH. f_equal.
    by apply (ofLine_of_commit h d).
  - unfold CommitLog.commits. rewrite split_trailing.
    destruct (CommitLog.split "010"%char logOutput) as [line lines]. simpl.
    f_equal. f_equal.
    change (line :: lines ++ [EmptyString]) with ((line :: lines) ++ [EmptyString]).
    rewrite filter_app. simpl. by rewrite app_nil_r.
Qed.

Lemma commits_of_log_output_witness :
  CommitLog.commits
    ("9fceb02d0ae598e95dc970b74767f19372d61af8|2024-01-31T00:00:00+00:00"
     +:+ String "010"%char
       "1b6d3c2f5e8a4b7c9d0e1f2a3b4c5d6e7f8091a2|2024-01-30T00:00:00+00:00")
  = [ {| CommitLog.hash := "1b6d3c2f5e8a4b7c9d0e1f2a3b4c5d6e7f8091a2";
         CommitLog.date := Some "2024-01-30T00:00:00+00:00" |};
      {| CommitLog.hash := "9fceb02d0ae598e95dc970b74767f19372d61af8";
         CommitLog.date := Some "2024-01-31T00:00:00+00:00" |} ].
Proof.
  apply (commits_of_log_output
           [ ("9fceb02d0ae598e95dc970b74767f19372d61af8",
              "2024-01-31T00:00:00+00:00");
             ("1b6d3c2f5e8a4b7c9d0e1f2a3b4c5d6e7f8091a2",
              "2024-01-30T00:00:00+00:00") ] EmptyString).
  repeat constructor.
Defined.

(** ** The feed and the environment of the stats run *)

(** X14: A feed that cannot be used contributes nothing and does not stop the
    run: when the body is text that does not parse, or a value that is
    neither an array of rows nor an object with an array under [results],
    the run completes on the loaded base alone (keys being strings), writes
    the records of the base whose pruned history is not empty and removes
    the archive. *)
Theorem unusable_feed_contributes_nothing
    (JSON_parse : string → option Feed.Json)
    (Date_parse : string → JS.num) (toISOString : Z → string)
    (fs : GenerateStats.FS) (url : string) (data : Feed.Body)
    (dcRes : option (gmap string JS.jsval)) (now : Z) (base : PlayerMap) :
  GenerateStats.loadBase fs = Some base →
  (∀ k r, (k, r) ∈ base → ∃ s, k = JS.JStr s) →
  url ≠ EmptyString →
  data = Feed.Structured Feed.JsonNull
  ∨ data = Feed.Structured Feed.JsonScalar
  ∨ data = Feed.Structured (Feed.JsonObject Feed.ResultsFalsy)
  ∨ data = Feed.Structured (Feed.JsonObject Feed.ResultsOther)
  ∨ (∃ s, data = Feed.Text s
          ∧ (JSON_parse s = None
             ∨ JSON_parse s = Some Feed.JsonNull
             ∨ JSON_parse s = Some Feed.JsonScalar
             ∨ JSON_parse s = Some (Feed.JsonObject Feed.ResultsFalsy))) →
  Feed.main JSON_parse Date_parse toISOString fs (Some url) (Some data) dcRes now
  = ({| GenerateStats.archive := None;
        GenerateStats.players :=
          applyWrites (writes Date_parse now (Feed.discordCache dcRes) base)
                      (GenerateStats.players fs) |}, Completed).
Proof.
  intros Hload Hkeys Hurl Hdata. unfold Feed.main. rewrite Hload.
  rewrite (proj2 (String.eqb_neq url EmptyString)) by done.
  assert (Feed.cfHistoryRows JSON_parse data = Some []) as ->.
  { destruct Hdata as [->|[->|[->|[->|(s & -> & Hs)]]]]; try done.
    simpl. by destruct Hs as [->|[->|[->| ->]]]. }
  unfold GenerateStats.run, GenerateStats.merged. rewrite Hload.
  change (GenerateStats.processLive toISOString base []) with base.
  destruct (finalizeAll_string_keys Date_parse now (Feed.discordCache dcRes)
              base (GenerateStats.players fs) Hkeys) as (final & dir' & Hrun).
  rewrite Hrun.
  by destruct (finalizeAll_completed _ _ _ _ _ _ _ Hrun) as [_ ->].
Qed.

Lemma unusable_feed_contributes_nothing_witness :
  Feed.main (λ _, None) Clock.Date_parse Clock.toISOString
    {| GenerateStats.archive := None;
       GenerateStats.players :=
         {[ "1234-5678-9012.json" := JsonFile Sample.stored ]} |}
    (Some "https://feed.example") (Some (Feed.Text "not json")) None Sample.now
  = ({| GenerateStats.archive := None;
        GenerateStats.players :=
          applyWrites
            (writes Clock.Date_parse Sample.now (Feed.discordCache None)
               [(JS.JStr "1234-5678-9012", Sample.stored)])
            {[ "1234-5678-9012.json" := JsonFile Sample.stored ]} |}, Completed).
Proof.
  refine (unusable_feed_contributes_nothing (λ _, None) Clock.Date_parse
            Clock.toISOString
            {| GenerateStats.archive := None;
               GenerateStats.players :=
                 {[ "1234-5678-9012.json" := JsonFile Sample.stored ]} |}
            "https://feed.example" (Feed.Text "not json") None Sample.now
            [(JS.JStr "1234-5678-9012", Sample.stored)] _ _ _ _).
  - vm_compute. reflexivity.
  - intros k r Hin. apply list_elem_of_singleton in Hin.
    injection Hin as -> _. by eexists.
  - discriminate.
  - do 4 right. exists "not json". split; [reflexivity | by left].
Defined.

(** X15: What stops the run before any row is processed leaves every file as it
    was, archive included: a base file that cannot be read, a base URL that
    is missing or empty, a feed request that fails, and a text body that
    parses to an object whose [results] is truthy without being an array
    (the same object, delivered already parsed, is tolerated as an empty
    feed). *)
Theorem fatal_before_processing
    (JSON_parse : string → option Feed.Json)
    (Date_parse : string → JS.num) (toISOString : Z → string)
    (fs : GenerateStats.FS) (CF_WORKER_URL : option string)
    (historyRes : option Feed.Body)
    (dcRes : option (gmap string JS.jsval)) (now : Z) :
  GenerateStats.loadBase fs = None
  ∨ CF_WORKER_URL = None ∨ CF_WORKER_URL = Some EmptyString
  ∨ historyRes = None
  ∨ (∃ s, historyRes = Some (Feed.Text s)
          ∧ JSON_parse s = Some (Feed.JsonObject Feed.ResultsOther)) →
  Feed.main JSON_parse Date_parse toISOString fs CF_WORKER_URL historyRes
            dcRes now
  = (fs, Failed)
  ∧ Feed.cfHistoryRows JSON_parse
      (Feed.Structured (Feed.JsonObject Feed.ResultsOther))
    = Some [].
Proof.
  intros Hfatal. split; [|done]. unfold Feed.main.
  destruct (GenerateStats.loadBase fs) as [base|]; [|done].
  destruct CF_WORKER_URL as [url|]; [|done].
  destruct (String.eqb url EmptyString) eqn:Hurl; [done|].
  destruct historyRes as [data|]; [|done].
  destruct Hfatal as [?|[?|[[= ->]|[?|(s & [= ->] & Hs)]]]]; try done.
  simpl. by rewrite Hs.
Qed.

Lemma fatal_before_processing_witness :
  Feed.main (λ _, Some (Feed.JsonObject Feed.ResultsOther))
    Clock.Date_parse Clock.toISOString Sample.emptyFS
    (Some "https://feed.example") (Some (Feed.Text "results: down"))
    None Sample.now
  = (Sample.emptyFS, Failed).
Proof.
  refine (proj1 (fatal_before_processing
                   (λ _, Some (Feed.JsonObject Feed.ResultsOther))
                   Clock.Date_parse Clock.toISOString Sample.emptyFS
                   (Some "https://feed.example")
                   (Some (Feed.Text "results: down")) None Sample.now _)).
  do 4 right. eexists. split; reflexivity.
Defined.

(** ** Entries, written records and the loader *)

Lemma elem_of_snoc {A} (l : list A) (x y : A) : y ∈ l ++ [x] ↔ y ∈ l ∨ y = x.
Proof. by rewrite elem_of_app, list_elem_of_singleton. Qed.

(** X16: Every entry of a history records a rating that was read: its total is
    the rating parsed from a record of that player in the snapshot of its
    date (or the entry was in the base already). *)
Theorem entries_record_the_rating_read
    (Date_parse : string → JS.num) (toISOString : Z → string) :
  (∀ base rows k e,
     e ∈ history_of k (GenerateStats.processLive toISOString base rows) →
     e ∈ history_of k base
     ∨ ∃ row p, row ∈ rows ∧ p ∈ rowPlayers row
                ∧ JS.truthy (Raw.fc p) = true ∧ Raw.fc p = k
                ∧ date e = GenerateStats.rowDate toISOString row
                ∧ totalVR e = currentVR p)
  ∧ (∀ snapshotMap k e,
       e ∈ history_of k (Backfill.build Date_parse snapshotMap) →
       ∃ players p, JSMap.get (date e) snapshotMap = Some players ∧ p ∈ players
                    ∧ JS.truthy (Raw.fc p) = true ∧ Raw.fc p = k
                    ∧ totalVR e = currentVR p).
Proof.
  split.
  - intros base rows k. unfold GenerateStats.processLive.
    apply (foldl_invariant _
      (λ m, ∀ e, e ∈ history_of k m →
                 e ∈ history_of k base
                 ∨ ∃ row p, row ∈ rows ∧ p ∈ rowPlayers row
                            ∧ JS.truthy (Raw.fc p) = true ∧ Raw.fc p = k
                            ∧ date e = GenerateStats.rowDate toISOString row
                            ∧ totalVR e = currentVR p)); [|by left].
    intros a row Hrow%elem_of_sort Ha. rewrite processRow_fold.
    apply (foldl_invariant _
      (λ m, ∀ e, e ∈ history_of k m →
                 e ∈ history_of k base
                 ∨ ∃ row p, row ∈ rows ∧ p ∈ rowPlayers row
                            ∧ JS.truthy (Raw.fc p) = true ∧ Raw.fc p = k
                            ∧ date e = GenerateStats.rowDate toISOString row
                            ∧ totalVR e = currentVR p)); [|done].
    intros a' p Hp Ha' e.
    destruct (JS.truthy (Raw.fc p)) eqn:Ht;
      [destruct (decide (Raw.fc p = k)) as [<-|Hne]|].
    + rewrite live_visit_same by done. case_decide; [apply Ha'|].
      intros [?| ->]%elem_of_snoc; [by apply Ha'|].
      right. by exists row, p.
    + rewrite live_visit_other by (by right). apply Ha'.
    + rewrite live_visit_other by (by left). apply Ha'.
  - intros snapshotMap k. unfold Backfill.build.
    apply (foldl_invariant _
      (λ m, ∀ e, e ∈ history_of k m →
                 ∃ players p, JSMap.get (date e) snapshotMap = Some players
                              ∧ p ∈ players
                              ∧ JS.truthy (Raw.fc p) = true ∧ Raw.fc p = k
                              ∧ totalVR e = currentVR p));
      [|by intros e ?%not_elem_of_nil].
    intros a d _ Ha.
    destruct (JSMap.get d snapshotMap) as [players|] eqn:Hget; [|done].
    apply (foldl_invariant _
      (λ m, ∀ e, e ∈ history_of k m →
                 ∃ players p, JSMap.get (date e) snapshotMap = Some players
                              ∧ p ∈ players
                              ∧ JS.truthy (Raw.fc p) = true ∧ Raw.fc p = k
                              ∧ totalVR e = currentVR p)); [|done].
    intros a' p Hp Ha' e.
    destruct (JS.truthy (Raw.fc p)) eqn:Ht;
      [destruct (decide (Raw.fc p = k)) as [<-|Hne]|].
    + rewrite backfill_visit_same by done.
      intros [?| ->]%elem_of_snoc; [by apply Ha'|].
      exists players, p. simpl. by split_and!.
    + rewrite backfill_visit_other by (by right). apply Ha'.
    + rewrite backfill_visit_other by (by left). apply Ha'.
Qed.

Lemma entries_record_the_rating_read_witness :
  ∃ players p,
    JSMap.get Sample.day31 (Backfill.collect Sample.fetched) = Some players
    ∧ p ∈ players ∧ JS.truthy (Raw.fc p) = true
    ∧ Raw.fc p = JS.JStr "1234-5678-9012"
    ∧ JS.Num 5040 = currentVR p.
Proof.
  destruct (entries_record_the_rating_read Clock.Date_parse Clock.toISOString)
    as [_ Hback].
  apply (Hback (Backfill.collect Sample.fetched) (JS.JStr "1234-5678-9012")
           {| date := Sample.day31; vrChange := JS.Num 40;
              totalVR := JS.Num 5040 |}).
  vm_compute. apply list_elem_of_further, list_elem_of_here.
Defined.

Lemma discordSync_truthy stored cacheProfile :
  JS.truthy (GenerateStats.discordSync stored cacheProfile) = true.
Proof.
  unfold GenerateStats.discordSync.
  assert (JS.truthy (if negb (JS.truthy stored) then JS.JStr "unknown" else stored)
          = true) as Ht by (by destruct (JS.truthy stored) eqn:Hs).
  destruct (JS.truthy cacheProfile) eqn:Hc; [|done].
  destruct (bool_decide _); [|done].
  by destruct (_ || _).
Qed.

(** X17: What a stats run writes is complete: when no key reaches an
    inherited member of the cache object, every record written by the loop
    of step 4 has a history that is not empty and lies within 30 days of
    [now], carries its statistics and a discord status that is set, and goes
    to the file named after its key. *)
Theorem written_records_are_complete
    (Date_parse : string → JS.num) (now : Z)
    (discordCache : gmap string JS.jsval) (entries : PlayerMap)
    (file : string) (r : PlayerRecord) :
  (file, r) ∈ writes Date_parse now discordCache entries →
  (∀ s data, (JS.JStr s, data) ∈ entries →
             GenerateStats.inherits discordCache s = false) →
  vr_history r ≠ []
  ∧ (∀ e, e ∈ vr_history r →
          ∃ t, Date_parse (date e) = JS.Num t
               ∧ now - t ≤ GenerateStats.thirtyDays)
  ∧ is_Some (vrStats r)
  ∧ JS.truthy (discord r) = true
  ∧ ∃ s data, (JS.JStr s, data) ∈ entries ∧ file = fileName s
              ∧ name r = name data ∧ fc r = fc data.
Proof.
  unfold writes. intros ([k data] & Hin & Hw)%list_elem_of_omap _.
  pose proof (finalize_history Date_parse now discordCache k data) as Hh.
  destruct (GenerateStats.finalize Date_parse now discordCache k data)
    as [data' save] eqn:Hf.
  destruct save; [|done]. destruct k as [| | | |s]; try done.
  injection Hw as <- <-. simpl in Hh.
  destruct (pruned Date_parse now data) as [|first rest] eqn:Hp.
  { by rewrite (finalize_empty _ _ _ _ _ Hp) in Hf. }
  pose proof (finalize_nonempty _ _ discordCache (JS.JStr s) _ _ _ Hp) as Hd.
  rewrite Hf in Hd. simpl in Hd. split_and!.
  - by rewrite Hh.
  - intros e He. rewrite Hh, <- Hp in He. by apply elem_of_pruned in He as [_ ?].
  - rewrite Hd. by eexists.
  - rewrite Hd. simpl. apply discordSync_truthy.
  - exists s, data. by rewrite Hd.
Qed.

Lemma written_records_are_complete_witness :
  vr_history (GenerateStats.finalize Clock.Date_parse Sample.now ∅
                (JS.JStr "1234-5678-9012") Sample.stored).1 ≠ []
  ∧ is_Some (vrStats (GenerateStats.finalize Clock.Date_parse Sample.now ∅
                        (JS.JStr "1234-5678-9012") Sample.stored).1)
  ∧ JS.truthy (discord (GenerateStats.finalize Clock.Date_parse Sample.now ∅
                          (JS.JStr "1234-5678-9012") Sample.stored).1)
    = true.
Proof.
  destruct (written_records_are_complete Clock.Date_parse Sample.now ∅
              [(JS.JStr "1234-5678-9012", Sample.stored)]
              "1234-5678-9012.json"
              (GenerateStats.finalize Clock.Date_parse Sample.now ∅
                 (JS.JStr "1234-5678-9012") Sample.stored).1)
    as (H1 & _ & H3 & H4 & _).
  - vm_compute. apply list_elem_of_here.
  - intros s data [= -> ->]%list_elem_of_singleton. reflexivity.
  - exact (conj H1 (conj H3 H4)).
Defined.

(** X18: With a single retained entry the three statistics are the difference of
    its total with itself: 0 for a rating that is a number. *)
Theorem single_entry_statistics
    (Date_parse : string → JS.num) (now : Z)
    (discordCache : gmap string JS.jsval) (k : JS.jsval) (data : PlayerRecord)
    (e : HistoryEntry) :
  vr_history (GenerateStats.finalize Date_parse now discordCache k data).1 = [e] →
  vrStats (GenerateStats.finalize Date_parse now discordCache k data).1
  = Some {| last24Hours := JS.sub (totalVR e) (totalVR e);
            lastWeek := JS.sub (totalVR e) (totalVR e);
            lastMonth := JS.sub (totalVR e) (totalVR e) |}.
Proof.
  rewrite finalize_history. intros Hp.
  rewrite (finalize_nonempty _ _ _ _ _ _ _ Hp). simpl.
  unfold GenerateStats.getVRAt. simpl.
  by repeat destruct (JS.ge _ _).
Qed.

Lemma single_entry_statistics_witness :
  vrStats (GenerateStats.finalize Clock.Date_parse Sample.now ∅
             (JS.JStr "1234-5678-9012")
             (with_history
                [ {| date := Sample.day31; vrChange := JS.Num 100;
                     totalVR := JS.Num 5000 |} ] Sample.stored)).1
  = Some {| last24Hours := JS.Num 0; lastWeek := JS.Num 0;
            lastMonth := JS.Num 0 |}.
Proof.
  refine (single_entry_statistics Clock.Date_parse Sample.now ∅
            (JS.JStr "1234-5678-9012")
            (with_history
               [ {| date := Sample.day31; vrChange := JS.Num 100;
                    totalVR := JS.Num 5000 |} ] Sample.stored)
            {| date := Sample.day31; vrChange := JS.Num 100;
               totalVR := JS.Num 5000 |} _).
  vm_compute. reflexivity.
Defined.

(** X19: The loader looks at the files whose name ends in [.json] only, and it
    fails exactly when one of those cannot be read: other files, readable
    or not, have no effect on the base. *)
Theorem loader_reads_json_files_only
    (files : list (string * File)) (playerMap : PlayerMap) :
  GenerateStats.loadFiles files playerMap
  = GenerateStats.loadFiles
      (filter (λ file, JS.endsWith file.1 ".json" = true) files) playerMap
  ∧ (GenerateStats.loadFiles files playerMap = None ↔
     ∃ file, (file, Unreadable) ∈ files ∧ JS.endsWith file ".json" = true).
Proof.
  split.
  - revert playerMap. induction files as [|[f c] files IH]; intros m; [done|].
    rewrite filter_cons.
    destruct (decide (JS.endsWith (f, c).1 ".json" = true)) as [Hjson|Hjson];
      simpl in *.
    + rewrite Hjson. simpl. destruct c; [apply IH | done].
    + apply not_true_is_false in Hjson. rewrite Hjson. simpl. apply IH.
  - revert playerMap. induction files as [|[f c] files IH]; intros m; simpl.
    + split; [done | by intros (? & ?%not_elem_of_nil & _)].
    + destruct (JS.endsWith f ".json") eqn:Hjson; simpl.
      * destruct c as [data|].
        -- rewrite IH. split.
           ++ intros (f' & Hin & Hj). exists f'.
              split; [by apply list_elem_of_further | done].
           ++ intros (f' & Hin & Hj).
              apply elem_of_cons in Hin as [Heq|Hin]; [by simplify_eq|].
              by exists f'.
        -- split; [|done]. intros _. exists f.
           split; [apply list_elem_of_here | done].
      * rewrite IH. split.
        -- intros (f' & Hin & Hj). exists f'.
           split; [by apply list_elem_of_further | done].
        -- intros (f' & Hin & Hj).
           apply elem_of_cons in Hin as [Heq|Hin];
             [injection Heq as -> _; congruence|].
           by exists f'.
Qed.
